(** * RobotCLI: the tool-calling loop of [backend.py] and the file tools of
    [tools.py], embedded and checked against the written specification.

    The Python code is embedded shallowly.  Everything the program owns
    (the conversation history, the dispatch on [globals()], the order of
    yields and appends, the control flow of [create_file]) is written out
    as Rocq functions.  Everything it merely calls (the remote model,
    [json.loads], the bodies of the handlers, [pathlib]) is an interface
    whose operations return a [PyResult], so that a raised exception is an
    ordinary value.

    A Python [str] is represented by the bytes of its UTF-8 encoding, so
    that concatenation, comparison and the search for a substring are
    those of the bytes; what depends on code points ([len], slicing) is
    written out on that encoding, and what depends on the Unicode tables
    ([str.strip], [str.lower]) belongs to the interface. *)

From stdpp Require Import base strings list gmap pretty.

Local Open Scope string_scope.
Local Open Scope list_scope.

(** ** Python values shared by both modules *)

(** The outcome of evaluating a Python expression: a value, or an exception
    of class [Exception] carried by its [str(e)] text, which is all the
    program ever reads from it. *)
Inductive PyResult (A : Type) : Type :=
| Returned (a : A)
| Raised (detail : string).
Arguments Returned {A} a.
Arguments Raised {A} detail.

(** Code that threads a mutable store and may raise: the store survives
    the exception, as Python's does (nothing is rolled back). *)
Definition Eff (S A : Type) : Type := S -> PyResult A * S.

Definition ret {S A} (a : A) : Eff S A := fun s => (Returned a, s).

Definition raise {S A} (detail : string) : Eff S A := fun s => (Raised detail, s).

Definition bind {S A B} (c : Eff S A) (k : A -> Eff S B) : Eff S B :=
  fun s =>
    match c s with
    | (Returned a, s') => k a s'
    | (Raised e, s') => (Raised e, s')
    end.

(** [try: c  except Exception as e: h (str e)]. *)
Definition try_except {S A} (c : Eff S A) (h : string -> Eff S A) : Eff S A :=
  fun s =>
    match c s with
    | (Returned a, s') => (Returned a, s')
    | (Raised e, s') => h e s'
    end.

(** An expression that reads the store without changing it. *)
Definition eval {S A} (f : S -> PyResult A) : Eff S A := fun s => (f s, s).

Notation "x <- c ;; k" := (bind c (fun x => k))
  (at level 100, c at next level, right associativity).
Notation "c ;;; k" := (bind c (fun _ => k))
  (at level 100, right associativity).

(** [for x in xs: body x]. *)
Fixpoint for_each {S A} (xs : list A) (body : A -> Eff S unit) : Eff S unit :=
  match xs with
  | [] => ret tt
  | x :: rest => body x ;;; for_each rest body
  end.

(** The double quote character, for JSON texts. *)
Definition dquote : string := String (Ascii.ascii_of_nat 34) EmptyString.

(** ** tools.py *)
Module Tools.

(** What [tools.py] asks of [os], [pathlib] and the file system. *)
Class OS : Type := {
  FS : Type;                                   (* the file system state *)
  Path : Type;                                 (* pathlib.Path *)
  expanduser_home : string;                    (* os.path.expanduser("~") *)
  mkPath : string -> Path;                     (* Path(s) *)
  joinpath : Path -> string -> Path;           (* p / s *)
  is_absolute : Path -> bool;                  (* p.is_absolute() *)
  path_exists : FS -> Path -> PyResult bool;   (* p.exists() *)
  path_resolve : FS -> Path -> PyResult Path;  (* p.resolve() *)
  path_parent : Path -> Path;                  (* p.parent *)
  (* p.mkdir(parents=True, exist_ok=True) *)
  mkdir_parents : Path -> Eff FS unit;
  (* p.write_text(content, encoding="utf-8") *)
  write_text : Path -> string -> Eff FS unit;
  (* s.strip() and s.lower(), Python's own, over all of Unicode *)
  str_strip : string -> string;
  str_lower : string -> string
}.

(** [str.strip()] and [str.lower()] restricted to ASCII texts, for the file
    systems in memory below, whose paths are ASCII. *)
Definition py_isspace (c : Ascii.ascii) : bool :=
  let n := Ascii.nat_of_ascii c in
  (Nat.leb 9 n && Nat.leb n 13) || (Nat.leb 28 n && Nat.leb n 32).

Fixpoint lstrip (s : string) : string :=
  match s with
  | String c rest => if py_isspace c then lstrip rest else s
  | EmptyString => EmptyString
  end.

Fixpoint rstrip (s : string) : string :=
  match s with
  | String c rest =>
      match rstrip rest with
      | EmptyString => if py_isspace c then EmptyString else String c EmptyString
      | kept => String c kept
      end
  | EmptyString => EmptyString
  end.

Definition ascii_strip (s : string) : string := rstrip (lstrip s).

Definition lower_ascii (c : Ascii.ascii) : Ascii.ascii :=
  let n := Ascii.nat_of_ascii c in
  if Nat.leb 65 n && Nat.leb n 90 then Ascii.ascii_of_nat (n + 32) else c.

Fixpoint ascii_lower (s : string) : string :=
  match s with
  | String c rest => String (lower_ascii c) (ascii_lower rest)
  | EmptyString => EmptyString
  end.

Definition common_dirs : gmap string string :=
  list_to_map
    [ ("downloads", "Downloads"); ("documents", "Documents");
      ("desktop", "Desktop"); ("music", "Music");
      ("pictures", "Pictures"); ("videos", "Videos") ].

Section WithOS.
Context {os : OS}.

(** [_resolve_path]: a synonym of a common directory goes under the home
    directory; a relative path that exists under the home directory is
    taken there; anything else is resolved as it stands. *)
Definition _resolve_path (path_str : string) : Eff FS Path :=
  let clean_path := str_lower (str_strip path_str) in
  match common_dirs !! clean_path with
  | Some dir => ret (joinpath (mkPath expanduser_home) dir)
  | None =>
      let p := mkPath path_str in
      let fall_through := eval (fun fs => path_resolve fs p) in
      if negb (is_absolute p) then
        let home_variant := joinpath (mkPath expanduser_home) path_str in
        found <- eval (fun fs => path_exists fs home_variant) ;;
        if (found : bool) then ret home_variant else fall_through
      else fall_through
  end.

(** [create_file]: refuses an existing target, otherwise makes the parent
    directories and writes the content.  Every exception of the body is
    turned into the returned text. *)
Definition create_file (path : string) (content : string) : Eff FS string :=
  try_except
    (p <- _resolve_path path ;;
     found <- eval (fun fs => path_exists fs p) ;;
     if (found : bool) then
       ret ("Error: File " +:+ path +:+ " already exists.")
     else
       mkdir_parents (path_parent p) ;;;
       write_text p content ;;;
       ret ("File created: " +:+ path))
    (fun e => ret ("Error creating file: " +:+ e)).

(** [write_to_file] is [create_file] ("same logic" in the source). *)
Definition write_to_file (path : string) (content : string) : Eff FS string :=
  create_file path content.






End WithOS.

(** A file system in memory, used to run the tools on concrete inputs:
    paths are strings, files are a map from path to content, directories
    are implicit (so [mkdir] has nothing to do and [parent] is never
    inspected), and the process runs in [/work] with home [/home/u]. *)
Definition starts_with_slash (s : string) : bool :=
  match s with
  | String c _ => Ascii.eqb c (Ascii.ascii_of_nat 47)
  | EmptyString => false
  end.




End Tools.

(** ** backend.py *)
Module Backend.

(** The value [json.loads] returns. *)
#[local] Unset Elimination Schemes.
Inductive Json : Type :=
| JNull
| JBool (b : bool)
| JInt (z : Z)
| JFloat (literal : string)
| JString (s : string)
| JArray (items : list Json)
| JObject (members : list (string * Json)).
#[local] Set Elimination Schemes.

(** One entry of [TOOLS_SCHEMA]: the function's name and description, its
    properties with their JSON types, and the required ones. *)
Record Descriptor : Type := {
  d_name : string;
  d_description : string;
  d_properties : list (string * string);
  d_required : list string
}.

Definition tool (name description : string)
    (properties : list (string * string)) (required : list string) :=
  {| d_name := name; d_description := description;
     d_properties := properties; d_required := required |}.

Definition TOOLS_SCHEMA : list Descriptor :=
  [ (* 1. Basic File Actions *)
    tool "create_file" "Create a new file with optional content."
      [("path", "string"); ("content", "string")] ["path"];
    tool "delete_file" "Delete a file. safe=True moves to recycle bin."
      [("path", "string"); ("safe", "boolean")] ["path"];
    tool "rename_file" "Rename a file."
      [("path", "string"); ("new_name", "string")] ["path"; "new_name"];
    tool "get_file_info" "Get size, creation date, etc."
      [("path", "string")] ["path"];
    tool "move_file" "Move a file or folder."
      [("source", "string"); ("destination", "string")] ["source"; "destination"];
    tool "copy_file" "Copy a file or folder."
      [("source", "string"); ("destination", "string")] ["source"; "destination"];
    (* 2. Folder Actions *)
    tool "make_directory" "Create a directory recursively."
      [("path", "string")] ["path"];
    tool "list_directory" "List contents of a directory."
      [("path", "string")] ["path"];
    (* 3. Bulk & Organization *)
    tool "search_files" "Search recursively by name or extension."
      [("query", "string"); ("search_path", "string")] ["query"];
    tool "organize_files_by_extension" "Sort files in a folder into subfolders by type."
      [("path", "string")] ["path"];
    (* 4. Content Manipulation *)
    tool "read_file" "Read text from a file."
      [("path", "string")] ["path"];
    tool "write_to_file" "Overwrite file content."
      [("path", "string"); ("content", "string")] ["path"; "content"];
    tool "append_to_file" "Append content to a file."
      [("path", "string"); ("content", "string")] ["path"; "content"];
    (* 5. Pro Features *)
    tool "zip_folder" "Compress folder to zip."
      [("folder_path", "string"); ("output_path", "string")]
      ["folder_path"; "output_path"];
    tool "extract_archive" "Unzip an archive."
      [("archive_path", "string"); ("output_path", "string")]
      ["archive_path"; "output_path"];
    tool "check_resources" "Check CPU and RAM usage." [] [];
    tool "disk_usage" "Check free space on drives." [] [];
    tool "list_processes" "List top memory consuming processes." [] [];
    tool "find_duplicates" "Find duplicate files in a folder."
      [("folder_path", "string")] ["folder_path"];
    tool "find_large_files" "Find files larger than threshold MB."
      [("folder_path", "string"); ("size_mb_threshold", "integer")] ["folder_path"];
    (* 6. DevOps *)
    tool "git_manager" "Manage git repo (init, add, commit, push)."
      [("repo_path", "string"); ("remote_url", "string");
       ("commit_message", "string")] ["repo_path"] ].

(** The names the catalog advertises to the model. *)
Definition catalog_names : list string := d_name <$> TOOLS_SCHEMA.

(** What a name of the module's namespace is bound to. *)
Inductive PyObject : Type :=
| InterpreterObj (name : string)   (* set by the interpreter: __name__, ... *)
| ModuleObj (name : string)        (* import os, import json *)
| TypingObj (name : string)        (* from typing import ... *)
| ClassObj (name : string)         (* OpenAI, RobotBackend *)
| FunctionObj (name : string)      (* from tools import ( ... ) *)
| CatalogObj.                      (* TOOLS_SCHEMA itself *)

(** The functions [backend.py] imports from [tools] (lines 5 to 15). *)
Definition imported_tools : list string :=
  [ "create_file"; "delete_file"; "rename_file"; "get_file_info";
    "make_directory"; "list_directory"; "is_directory";
    "search_files"; "organize_files_by_extension";
    "move_file"; "copy_file";
    "read_file"; "write_to_file"; "append_to_file";
    "zip_folder"; "extract_archive";
    "check_resources"; "disk_usage"; "list_processes";
    "find_duplicates"; "find_large_files";
    "git_manager" ].

(** The functions [tools.py] defines at its top level. *)
Definition tools_module_functions : list string :=
  [ "get_documents_dir"; "_resolve_path";
    "create_file"; "delete_file"; "rename_file"; "get_file_info";
    "make_directory"; "list_directory"; "is_directory";
    "search_files"; "organize_files_by_extension"; "move_file"; "copy_file";
    "read_file"; "write_to_file"; "append_to_file";
    "zip_folder"; "extract_archive"; "check_resources"; "disk_usage";
    "list_processes"; "find_duplicates"; "find_large_files";
    "git_manager"; "manage_files" ].

(** The bindings of [backend.py]'s module namespace, in binding order:
    what the interpreter provides, then the imports, the catalog and the
    class. *)
Definition module_bindings : list (string * PyObject) :=
  ((fun n => (n, InterpreterObj n)) <$>
     [ "__name__"; "__doc__"; "__package__"; "__loader__"; "__spec__";
       "__file__"; "__cached__"; "__builtins__" ])
  ++ [ ("os", ModuleObj "os"); ("json", ModuleObj "json") ]
  ++ ((fun n => (n, TypingObj n)) <$> [ "List"; "Dict"; "Any"; "Generator" ])
  ++ [ ("OpenAI", ClassObj "OpenAI") ]
  ++ ((fun n => (n, FunctionObj n)) <$> imported_tools)
  ++ [ ("TOOLS_SCHEMA", CatalogObj); ("RobotBackend", ClassObj "RobotBackend") ].

(** [globals()] inside [chat_step]: the namespace of the module that
    defines the method. *)
Definition globals : gmap string PyObject := list_to_map module_bindings.
Arguments globals : simpl never.

(** [tool_call.id], [tool_call.function.name], [tool_call.function.arguments]. *)
Record ToolCall : Type := {
  tc_id : string;
  tc_name : string;
  tc_arguments : string
}.

(** [response.choices[0].message]: [content] may be [None], [tool_calls]
    may be [None] or a list. *)
Record Message : Type := {
  msg_content : option string;
  msg_tool_calls : option (list ToolCall)
}.

Inductive Role : Type := System | User | Assistant.

(** An entry of [self.history]: a role/content dictionary, the message
    object of the model appended as it is, or a tool-result dictionary. *)
Inductive Turn : Type :=
| Dict (role : Role) (content : option string)
| Msg (msg : Message)
| ToolResult (tool_call_id name content : string).

(** What the generator yields: type "status" or "content", and a value. *)
Inductive Event : Type :=
| Status (value : string)
| Content (value : option string).

(** What the loop does, in the order it does it; a call is logged with
    what came back. *)
Inductive Effect : Type :=
| EYield (ev : Event)
| EAppend (t : Turn)
| ECreate (model : string) (messages : list Turn) (tools : bool)
          (outcome : PyResult Message)
| ECall (func : PyObject) (args : Json) (outcome : PyResult string).

(** The collaborators of the loop.  [completions_create model messages
    tools] is [self.client.chat.completions.create(...)] followed by
    [.choices[0].message], with [tools = true] when the catalog is passed;
    [py_call func args] is the call of [func] with the members of [args]
    as keyword arguments, followed by [str] on what it returns; a failure
    to unpack [args] or to call [func] is the call raising.  [str] itself
    is taken not to raise: the tools return strings and the classes bound
    in the namespace keep the default representation. *)
Class Env : Type := {
  World : Type;
  completions_create : string -> list Turn -> bool -> Eff World Message;
  json_loads : string -> PyResult Json;
  py_call : PyObject -> Json -> Eff World string
}.

Definition system_prompt : string :=
  "You are RobotCLI, an advanced Windows System Intelligence Agent. You can manage files (create, delete safe, zip), organize folders, and monitor system health (CPU/RAM). Always prefer 'safe' delete (Recycle Bin). When asked to organize, use the organize tool. Be helpful and precise.".

Definition system_turn : Turn := Dict System (Some system_prompt).

Definition default_model : string := "google/gemini-2.0-flash-001".

Definition running (func_name : string) : Event :=
  Status ("Running " +:+ func_name +:+ "...").

Definition completed (func_name : string) : Event :=
  Status ("Completed " +:+ func_name +:+ ".").

Definition not_implemented (func_name : string) : string :=
  "Error: Function " +:+ func_name +:+ " not implemented.".

Definition execution_error (detail : string) : string :=
  "Execution Error: " +:+ detail.

Section WithEnv.
Context {env : Env}.

(** A [RobotBackend] object with the world it runs in and the log of
    what it has done. *)
Record Machine : Type := {
  history : list Turn;
  model : string;
  world : World;
  trace : list Effect
}.

Definition emit (e : Effect) : Eff Machine unit :=
  fun m =>
    (Returned tt,
     {| history := history m; model := model m; world := world m;
        trace := trace m ++ [e] |}).

(** Run code of the world inside the machine and log its outcome. *)
Definition in_world {A} (e : PyResult A -> Effect) (c : Eff World A)
    : Eff Machine A :=
  fun m =>
    let '(r, w) := c (world m) in
    (r, {| history := history m; model := model m; world := w;
           trace := trace m ++ [e r] |}).

(** [yield {"type": ..., "value": ...}]. *)
Definition yield (ev : Event) : Eff Machine unit := emit (EYield ev).

(** [self.history.append(t)]. *)
Definition history_append (t : Turn) : Eff Machine unit :=
  fun m =>
    (Returned tt,
     {| history := history m ++ [t]; model := model m; world := world m;
        trace := trace m ++ [EAppend t] |}).

(** [self.client.chat.completions.create(model=self.model,
    messages=self.history, ...)] and the message of its first choice. *)
Definition create (tools : bool) : Eff Machine Message :=
  fun m =>
    in_world (ECreate (model m) (history m) tools)
             (completions_create (model m) (history m) tools) m.

(** [__init__]. *)
Definition init (model : string) (w : World) : Machine :=
  {| history := [system_turn]; model := model; world := w; trace := [] |}.

(** [set_model]. *)
Definition set_model (new_model : string) : Eff Machine unit :=
  fun m =>
    (Returned tt,
     {| history := history m; model := new_model; world := world m;
        trace := trace m |}).

(** The block under the comment [# Dispatcher] (lines 98 to 105). *)
Definition dispatcher (func_name : string) (args : Json) : Eff Machine string :=
  try_except
    (match globals !! func_name with
     | Some func => in_world (ECall func args) (py_call func args)
     | None => ret (not_implemented func_name)
     end)
    (fun e => ret (execution_error e)).

(** The body of [for tool_call in msg.tool_calls]. *)
Definition tool_call_body (tool_call : ToolCall) : Eff Machine unit :=
  let func_name := tc_name tool_call in
  args <- eval (fun _ => json_loads (tc_arguments tool_call)) ;;
  yield (running func_name) ;;;
  result <- dispatcher func_name args ;;
  history_append (ToolResult (tc_id tool_call) func_name result) ;;;
  yield (completed func_name).

(** [chat_step], run until the generator is exhausted. *)
Definition chat_step (user_input : string) : Eff Machine unit :=
  history_append (Dict User (Some user_input)) ;;;
  try_except
    (msg <- create true ;;
     match msg_tool_calls msg with
     | Some ((_ :: _) as tool_calls) =>
         history_append (Msg msg) ;;;
         for_each tool_calls tool_call_body ;;;
         final <- create false ;;
         history_append (Dict Assistant (msg_content final)) ;;;
         yield (Content (msg_content final))
     | _ =>
         history_append (Dict Assistant (msg_content msg)) ;;;
         yield (Content (msg_content msg))
     end)
    (fun e => yield (Content (Some ("Error: " +:+ e)))).

End WithEnv.

Arguments Machine env : clear implicits.

(** *** Reading a trace *)

Definition events_of (t : list Effect) : list Event :=
  omap (fun e => match e with EYield ev => Some ev | _ => None end) t.

Definition appended (t : list Effect) : list Turn :=
  omap (fun e => match e with EAppend x => Some x | _ => None end) t.

(** The model calls of a trace: [true] where the catalog was offered. *)
Definition creates (t : list Effect) : list bool :=
  omap (fun e => match e with ECreate _ _ tools _ => Some tools | _ => None end) t.

Definition calls (t : list Effect) : list PyObject :=
  omap (fun e => match e with ECall f _ _ => Some f | _ => None end) t.

Definition is_content (ev : Event) : bool :=
  match ev with Content _ => true | Status _ => false end.

Definition tool_results (h : list Turn) : list (string * string) :=
  omap (fun t => match t with
                 | ToolResult id name _ => Some (id, name)
                 | _ => None
                 end) h.

(** *** One executed invocation, and the loop replayed as a function *)

(** What one passage through the loop body leaves behind: the invocation,
    its parsed arguments, the object called with what the call gave (none
    when the name is unbound), and the text put in the history. *)
Record Step : Type := {
  step_call : ToolCall;
  step_args : Json;
  step_dispatch : option (PyObject * PyResult string);
  step_result : string
}.

Definition step_turn (s : Step) : Turn :=
  ToolResult (tc_id (step_call s)) (tc_name (step_call s)) (step_result s).

Definition step_log (s : Step) : list Effect :=
  match step_dispatch s with
  | Some (f, r) => [ECall f (step_args s) r]
  | None => []
  end.

Definition step_block (s : Step) : list Effect :=
  [EYield (running (tc_name (step_call s)))]
  ++ step_log s
  ++ [EAppend (step_turn s); EYield (completed (tc_name (step_call s)))].

Definition status_pair (func_name : string) : list Event :=
  [running func_name; completed func_name].

Definition result_text (r : PyResult string) : string :=
  match r with
  | Returned text => text
  | Raised e => execution_error e
  end.

Section Replay.
Context {env : Env}.

Definition run_step (tc : ToolCall) (args : Json) (w : World) : Step * World :=
  match globals !! tc_name tc with
  | Some f =>
      let '(r, w') := py_call f args w in
      ({| step_call := tc; step_args := args;
          step_dispatch := Some (f, r); step_result := result_text r |}, w')
  | None =>
      ({| step_call := tc; step_args := args;
          step_dispatch := None;
          step_result := not_implemented (tc_name tc) |}, w)
  end.

(** The steps taken over a batch, the parse error that stopped it (if
    any), and the world afterwards. *)
Fixpoint run_batch (tcs : list ToolCall) (w : World)
    : list Step * option string * World :=
  match tcs with
  | [] => ([], None, w)
  | tc :: rest =>
      match json_loads (tc_arguments tc) with
      | Raised e => ([], Some e, w)
      | Returned args =>
          let '(s, w1) := run_step tc args w in
          let '(ss, stop, w2) := run_batch rest w1 in
          (s :: ss, stop, w2)
      end
  end.

Definition user_turn (user_input : string) : Turn :=
  Dict User (Some user_input).

Definition answer_turn (msg : Message) : Turn :=
  Dict Assistant (msg_content msg).

(** The event of the outer [except]. *)
Definition failed (e : string) : Effect :=
  EYield (Content (Some ("Error: " +:+ e))).

(** The user turn appended and the first model call, with the catalog. *)
Definition opening (user_input : string) (m : Machine env)
    (r : PyResult Message) : list Effect :=
  [ EAppend (user_turn user_input);
    ECreate (model m) (history m ++ [user_turn user_input]) true r ].

Definition batch_turns (user_input : string) (msg : Message)
    (steps : list Step) : list Turn :=
  [user_turn user_input; Msg msg] ++ (step_turn <$> steps).

Definition batch_effects (user_input : string) (m : Machine env)
    (msg : Message) (steps : list Step) : list Effect :=
  opening user_input m (Returned msg)
  ++ [EAppend (Msg msg)] ++ (steps ≫= step_block).

(** The second model call, without the catalog. *)
Definition synthesis (user_input : string) (m : Machine env)
    (msg : Message) (steps : list Step) (r : PyResult Message) : Effect :=
  ECreate (model m) (history m ++ batch_turns user_input msg steps) false r.

(** What one call of [chat_step] adds to the history and to the trace,
    and the world it leaves. *)
Definition turn_summary (user_input : string) (m : Machine env)
    : list Turn * list Effect * World :=
  let user := user_turn user_input in
  let '(r1, w1) :=
    completions_create (model m) (history m ++ [user]) true (world m) in
  match r1 with
  | Raised e => ([user], opening user_input m r1 ++ [failed e], w1)
  | Returned msg =>
      match msg_tool_calls msg with
      | Some ((_ :: _) as tool_calls) =>
          let '(steps, stop, w2) := run_batch tool_calls w1 in
          let turns := batch_turns user_input msg steps in
          let batch := batch_effects user_input m msg steps in
          match stop with
          | Some e => (turns, batch ++ [failed e], w2)
          | None =>
              let '(r3, w3) :=
                completions_create (model m) (history m ++ turns) false w2 in
              let second := synthesis user_input m msg steps r3 in
              match r3 with
              | Raised e => (turns, batch ++ [second; failed e], w3)
              | Returned final =>
                  (turns ++ [answer_turn final],
                   batch ++ [second; EAppend (answer_turn final);
                             EYield (Content (msg_content final))], w3)
              end
          end
      | _ =>
          ([user; answer_turn msg],
           opening user_input m r1
           ++ [EAppend (answer_turn msg); EYield (Content (msg_content msg))],
           w1)
      end
  end.

(** What a call of [chat_step] did: the part of the trace, of the
    events and of the history that it added. *)
Definition turn_effects (user_input : string) (m : Machine env) : list Effect :=
  drop (length (trace m)) (trace (snd (chat_step user_input m))).

Definition turn_events (user_input : string) (m : Machine env) : list Event :=
  events_of (turn_effects user_input m).

Definition turn_turns (user_input : string) (m : Machine env) : list Turn :=
  drop (length (history m)) (history (snd (chat_step user_input m))).

(** What the model answers to the first call of the turn. *)
Definition first_response (user_input : string) (m : Machine env)
    : PyResult Message :=
  fst (completions_create (model m)
         (history m ++ [user_turn user_input]) true (world m)).

(** [json.loads] accepts the payload of the invocation. *)
Definition parses (tc : ToolCall) : Prop :=
  exists args, json_loads (tc_arguments tc) = Returned args.

(** A step is what the loop body does for its invocation: the payload
    parsed, the name looked up in [globals()], the bound object called
    and its outcome turned into text, or the name reported. *)
Definition step_ok (s : Step) : Prop :=
  json_loads (tc_arguments (step_call s)) = Returned (step_args s)
  /\ match globals !! tc_name (step_call s) with
     | Some f =>
         exists r, step_dispatch s = Some (f, r)
                   /\ step_result s = result_text r
     | None =>
         step_dispatch s = None
         /\ step_result s = not_implemented (tc_name (step_call s))
     end.

(** The five ways a call of [chat_step] can go, with the turns and the
    effects each one adds. *)
Inductive TurnShape (user_input : string) (m : Machine env)
    : list Turn -> list Effect -> Prop :=
| FirstCallFailed e :
    first_response user_input m = Raised e ->
    TurnShape user_input m
      [user_turn user_input]
      (opening user_input m (Raised e) ++ [failed e])
| Answered msg :
    first_response user_input m = Returned msg ->
    msg_tool_calls msg = None \/ msg_tool_calls msg = Some [] ->
    TurnShape user_input m
      [user_turn user_input; answer_turn msg]
      (opening user_input m (Returned msg)
       ++ [EAppend (answer_turn msg); EYield (Content (msg_content msg))])
| PayloadRejected msg steps tc rest e :
    first_response user_input m = Returned msg ->
    msg_tool_calls msg = Some ((step_call <$> steps) ++ tc :: rest) ->
    Forall step_ok steps ->
    json_loads (tc_arguments tc) = Raised e ->
    TurnShape user_input m
      (batch_turns user_input msg steps)
      (batch_effects user_input m msg steps ++ [failed e])
| SynthesisFailed msg steps e :
    first_response user_input m = Returned msg ->
    msg_tool_calls msg = Some (step_call <$> steps) ->
    steps <> [] ->
    Forall step_ok steps ->
    TurnShape user_input m
      (batch_turns user_input msg steps)
      (batch_effects user_input m msg steps
       ++ [synthesis user_input m msg steps (Raised e); failed e])
| Synthesised msg steps final :
    first_response user_input m = Returned msg ->
    msg_tool_calls msg = Some (step_call <$> steps) ->
    steps <> [] ->
    Forall step_ok steps ->
    TurnShape user_input m
      (batch_turns user_input msg steps ++ [answer_turn final])
      (batch_effects user_input m msg steps
       ++ [synthesis user_input m msg steps (Returned final);
           EAppend (answer_turn final);
           EYield (Content (msg_content final))]).

(** A session: calls of [chat_step] with [set_model] in between. *)
Inductive Op : Type :=
| ChatStep (user_input : string)
| SetModel (new_model : string).

Definition run_op (op : Op) : Eff (Machine env) unit :=
  match op with
  | ChatStep user_input => chat_step user_input
  | SetModel new_model => set_model new_model
  end.

Fixpoint chat_steps (ops : list Op) : nat :=
  match ops with
  | [] => 0
  | ChatStep _ :: rest => S (chat_steps rest)
  | SetModel _ :: rest => chat_steps rest
  end.

End Replay.

(** *** A scripted world

    The model is a script of responses consumed one per call; an exhausted
    script is a connection failure.  [json.loads] and the handlers are
    given on the few arguments the scenarios use, where they answer as
    Python does. *)

Definition payload_path_X : string :=
  "{" +:+ dquote +:+ "path" +:+ dquote +:+ ": " +:+ dquote +:+ "X" +:+ dquote +:+ "}".

Definition stub_completions (model : string) (messages : list Turn) (tools : bool)
    : Eff (list (PyResult Message)) Message :=
  fun script =>
    match script with
    | r :: rest => (r, rest)
    | [] => (Raised "Connection error.", [])
    end.

Definition stub_json_loads (s : string) : PyResult Json :=
  if String.eqb s "{}" then Returned (JObject [])
  else if String.eqb s payload_path_X then Returned (JObject [("path", JString "X")])
  else if String.eqb s "{bad" then
    Raised "Expecting property name enclosed in double quotes: line 1 column 2 (char 1)"
  else Raised "Expecting value: line 1 column 1 (char 0)".

Definition stub_py_call (func : PyObject) (args : Json)
    : Eff (list (PyResult Message)) string :=
  match func, args with
  | FunctionObj name, JObject [] =>
      raise (name +:+ "() missing 1 required positional argument: 'path'")
  | FunctionObj name, JObject [(_, JString path)] =>
      if String.eqb name "is_directory" then ret "False"
      else ret ("Error: Path " +:+ path +:+ " not found.")
  | ModuleObj _, _ => raise "'module' object is not callable"
  | _, _ => raise "unscripted"
  end.

Definition stub_env : Env := {|
  World := list (PyResult Message);
  completions_create := stub_completions;
  json_loads := stub_json_loads;
  py_call := stub_py_call
|}.

Definition invocation (id name arguments : string) : ToolCall :=
  {| tc_id := id; tc_name := name; tc_arguments := arguments |}.

Definition batch_of (tool_calls : list ToolCall) : Message :=
  {| msg_content := None; msg_tool_calls := Some tool_calls |}.

Definition answer_of (text : string) : Message :=
  {| msg_content := Some text; msg_tool_calls := None |}.

Definition session_with (script : list (PyResult Message)) : Machine stub_env :=
  init (env := stub_env) default_model script.

Definition after_turn (user_input : string) (m : Machine stub_env) : Machine stub_env :=
  snd (chat_step (env := stub_env) user_input m).

Definition list_X (id : string) : ToolCall :=
  invocation id "list_directory" payload_path_X.

Definition malformed (id : string) : ToolCall :=
  invocation id "list_directory" "{bad".

(** The model asks for two listings; the payload of the first is not JSON. *)
Definition malformed_first : Machine stub_env :=
  session_with [ Returned (batch_of [malformed "call_1"; list_X "call_2"]);
                 Returned (answer_of "Done.") ].

(** Three invocations; the payload of the second is not JSON. *)
Definition malformed_second : Machine stub_env :=
  session_with [ Returned (batch_of [ list_X "call_1"; malformed "call_2";
                                      invocation "call_3" "is_directory" payload_path_X ]);
                 Returned (answer_of "Done.") ].

(** A single invocation whose payload is not JSON. *)
Definition malformed_only : Machine stub_env :=
  session_with [ Returned (batch_of [malformed "call_1"]);
                 Returned (answer_of "Done.") ].

(** The model names a capability that nothing defines. *)
Definition frobnicate : ToolCall := invocation "call_1" "frobnicate" "{}".

Definition frobnicate_session : Machine stub_env :=
  session_with [ Returned (batch_of [frobnicate]);
                 Returned (answer_of "I cannot do that.") ].

(** [list_directory] called without its argument raises a [TypeError]. *)
Definition missing_argument : ToolCall := invocation "call_1" "list_directory" "{}".

(** A batch of two invocations, the first without its argument, and the
    answer the model gives afterwards. *)
Definition missing_argument_session : Machine stub_env :=
  session_with [ Returned (batch_of [missing_argument; list_X "call_2"]);
                 Returned (answer_of "Done.") ].

(** The model cannot be reached at all. *)
Definition offline_session : Machine stub_env := session_with [].

(** The model names [is_directory], which the catalog does not offer. *)
Definition is_directory_session : Machine stub_env :=
  session_with [ Returned (batch_of [invocation "call_1" "is_directory" payload_path_X]);
                 Returned (answer_of "X is not a directory.") ].

(** The model names [manage_files], a function of [tools.py] that
    [backend.py] does not import. *)
Definition manage_files_session : Machine stub_env :=
  session_with [ Returned (batch_of [invocation "call_1" "manage_files" "{}"]);
                 Returned (answer_of "I cannot do that.") ].

End Backend.

(** ** tools.py, the remaining tools *)
Module Files.
Import Tools.

(** What the other tools ask of [pathlib], [os], [shutil], [send2trash],
    [hashlib] and [subprocess], beyond what [create_file] needs.  [os_walk]
    is the sequence of [(root, dirs, files)] that [os.walk] produces; the
    loops that consume it only read the file system, so producing it at
    once or lazily gives the same run. *)
Class Disk {os : OS} : Type := {
  path_text : Path -> string;                   (* str(p), also inside f-strings *)
  path_name : Path -> string;                   (* p.name *)
  path_is_dir : FS -> Path -> PyResult bool;    (* p.is_dir() *)
  iterdir : FS -> Path -> PyResult (list Path); (* list(p.iterdir()) *)
  (* p.read_text(encoding='utf-8', errors='replace') *)
  read_text : FS -> Path -> PyResult string;
  read_bytes : FS -> Path -> PyResult string;   (* p.read_bytes() *)
  stat_size : FS -> Path -> PyResult Z;         (* p.stat().st_size *)
  os_walk : FS -> Path -> list (string * list string * list string);
  os_path_join : string -> string -> string;    (* os.path.join(root, file) *)
  md5_hexdigest : string -> string;             (* hashlib.md5(b).hexdigest() *)
  format_mb : Z -> string;                      (* size/(1024**2) printed with .1f *)
  repr_list : list string -> string;            (* str of a list of str *)
  send2trash : string -> Eff FS unit;           (* send2trash.send2trash(s) *)
  rmtree : Path -> Eff FS unit;                 (* shutil.rmtree(p) *)
  os_remove : Path -> Eff FS unit;              (* os.remove(p) *)
  shutil_move : string -> string -> Eff FS unit;
  shutil_copy : string -> string -> Eff FS unit;
  (* the exit status of the command run in the directory, or the failure
     to start it *)
  run_process : list string -> Path -> Eff FS Z;
  (* str of the CalledProcessError for a command and its status *)
  called_process_error : list string -> Z -> string
}.

Definition newline : string := String (Ascii.ascii_of_nat 10) EmptyString.

(** In UTF-8 the bytes 128 to 191 continue a code point and every other
    byte starts one. *)
Definition continues (c : Ascii.ascii) : bool :=
  let n := Ascii.nat_of_ascii c in
  Nat.leb 128 n && Nat.leb n 191.

(** [len(s)]: the number of code points of the text. *)
Fixpoint py_len (s : string) : nat :=
  match s with
  | EmptyString => 0
  | String c rest => (if continues c then 0 else 1) + py_len rest
  end.

(** [s[:n]]: the first [n] code points of the text. *)
Fixpoint py_take (n : nat) (s : string) : string :=
  match s with
  | EmptyString => EmptyString
  | String c rest =>
      if continues c then String c (py_take n rest)
      else match n with
           | 0 => EmptyString
           | S n' => String c (py_take n' rest)
           end
  end.

(** [needle in hay] on strings: a text occurs in another exactly when its
    UTF-8 bytes occur among the bytes of the other. *)
Fixpoint contains (needle hay : string) : bool :=
  String.prefix needle hay
  || match hay with
     | String _ rest => contains needle rest
     | EmptyString => false
     end.

(** [for x in xs: out.append(f x)], the list built. *)
Fixpoint collect {S A B} (xs : list A) (f : A -> Eff S B) : Eff S (list B) :=
  match xs with
  | [] => ret []
  | x :: rest => y <- f x ;; ys <- collect rest f ;; ret (y :: ys)
  end.

Section WithDisk.
Context {os : OS} {disk : Disk}.

Definition get_documents_dir : Path := joinpath (mkPath expanduser_home) "Documents".

(** [read_file]: at most the first 2000 characters (code points), with
    "..." after them when something was cut. *)
Definition read_file (path : string) : Eff FS string :=
  try_except
    (p <- _resolve_path path ;;
     found <- eval (fun fs => path_exists fs p) ;;
     if (found : bool) then
       text <- eval (fun fs => read_text fs p) ;;
       ret (py_take 2000 text
            +:+ (if Nat.ltb 2000 (py_len text) then "..." else EmptyString))
     else ret "Error: Not found.")
    (fun e => ret ("Error reading file: " +:+ e)).

(** One line of [list_directory]. *)
Definition detail (item : Path) : Eff FS string :=
  is_dir <- eval (fun fs => path_is_dir fs item) ;;
  let kind := if (is_dir : bool) then "DIR" else "FILE" in
  ret ("[" +:+ kind +:+ "] " +:+ path_name item).

Definition list_directory (path : string) : Eff FS string :=
  try_except
    (p <- _resolve_path path ;;
     found <- eval (fun fs => path_exists fs p) ;;
     if negb found then ret ("Error: Path " +:+ path +:+ " not found.")
     else
       is_dir <- eval (fun fs => path_is_dir fs p) ;;
       if negb is_dir then ret ("Error: " +:+ path +:+ " is not a directory.")
       else
         items <- eval (fun fs => iterdir fs p) ;;
         details <- collect (take 50 items) detail ;;
         let details :=
           if Nat.ltb 50 (length items)
           then details ++ ["... and " +:+ pretty (length items - 50) +:+ " more."]
           else details in
         ret (String.concat newline details))
    (fun e => ret ("Error listing directory: " +:+ e)).

(** [is_directory]: the answer of [is_dir], printed. *)
Definition is_directory (path : string) : Eff FS string :=
  try_except
    (p <- _resolve_path path ;;
     is_dir <- eval (fun fs => path_is_dir fs p) ;;
     ret (if (is_dir : bool) then "True" else "False"))
    (fun e => ret ("Error checking type: " +:+ e)).

(** [make_directory]. *)
Definition make_directory (path : string) : Eff FS string :=
  try_except
    (p <- _resolve_path path ;;
     mkdir_parents p ;;;
     ret ("Directory created: " +:+ path))
    (fun e => ret ("Error making directory: " +:+ e)).

(** [delete_file]; [safe] is [True] unless the caller says otherwise. *)
Definition delete_file (path : string) (safe : bool) : Eff FS string :=
  try_except
    (p <- _resolve_path path ;;
     found <- eval (fun fs => path_exists fs p) ;;
     if negb found then ret ("Error: File " +:+ path +:+ " not found.")
     else if safe then
       send2trash (path_text p) ;;;
       ret ("Moved to Recycle Bin: " +:+ path)
     else
       is_dir <- eval (fun fs => path_is_dir fs p) ;;
       (if (is_dir : bool) then rmtree p else os_remove p) ;;;
       ret ("Permanently deleted: " +:+ path))
    (fun e => ret ("Error deleting file: " +:+ e)).

(** The body of the two nested loops over [os.walk]: [visit] is applied to
    [Path(root) / file] for every file, directory after directory. *)
Definition walk_fold {A} (visit : A -> Path -> A) (start : A)
    (walk : list (string * list string * list string)) : A :=
  foldl (fun acc '(root, _, files) =>
           foldl (fun acc file => visit acc (joinpath (mkPath root) file))
                 acc files)
        start walk.

(** [find_duplicates]: [hashes] remembers the first file seen with each
    digest, [dupes] the lines reported; a file that cannot be read is
    passed over. *)
Definition dup_visit (fs : FS) (st : gmap string Path * list string)
    (fpath : Path) : gmap string Path * list string :=
  let '(hashes, dupes) := st in
  match read_bytes fs fpath with
  | Returned bytes =>
      let file_hash := md5_hexdigest bytes in
      match hashes !! file_hash with
      | Some first =>
          (hashes, dupes ++ [path_text fpath +:+ " == " +:+ path_text first])
      | None => (<[file_hash := fpath]> hashes, dupes)
      end
  | Raised _ => st
  end.

Definition find_duplicates (folder_path : string) : Eff FS string :=
  try_except
    (root_path <- _resolve_path folder_path ;;
     eval (fun fs =>
       let '(_, dupes) :=
         walk_fold (dup_visit fs) (∅, []) (os_walk fs root_path) in
       Returned
         match dupes with
         | [] => "No duplicates found."
         | _ => "Duplicates found:" +:+ newline
                +:+ String.concat newline (take 20 dupes)
         end))
    (fun e => ret ("Error finding duplicates: " +:+ e)).

(** [find_large_files]; the threshold is 100 unless the caller gives one. *)
Definition large_visit (fs : FS) (limit_bytes : Z) (large_files : list string)
    (fpath : Path) : list string :=
  match stat_size fs fpath with
  | Returned size =>
      if (limit_bytes <? size)%Z
      then large_files ++ [path_text fpath +:+ " (" +:+ format_mb size +:+ " MB)"]
      else large_files
  | Raised _ => large_files
  end.

Definition find_large_files (folder_path : string) (size_mb_threshold : Z)
    : Eff FS string :=
  try_except
    (root_path <- _resolve_path folder_path ;;
     eval (fun fs =>
       let limit_bytes := (size_mb_threshold * 1024 * 1024)%Z in
       let large_files :=
         walk_fold (large_visit fs limit_bytes) [] (os_walk fs root_path) in
       Returned (String.concat newline (take 20 large_files))))
    (fun e => ret ("Error finding large files: " +:+ e)).

(** [search_files].  The scan stops before a directory once more than
    10000 files have been counted; within a directory every file is
    looked at. *)
Definition search_dir (query : string) (st : Z * list string)
    (entry : string * list string * list string) : Z * list string :=
  let '(root, _, files) := entry in
  foldl (fun '(scan_count, matches) file =>
           ((scan_count + 1)%Z,
            if contains (str_lower query) (str_lower file)
            then matches ++ [os_path_join root file]
            else matches))
        st files.

Fixpoint search_walk (query : string) (st : Z * list string)
    (walk : list (string * list string * list string)) : Z * list string :=
  match walk with
  | [] => st
  | entry :: rest =>
      if (10000 <? fst st)%Z then st
      else search_walk query (search_dir query st entry) rest
  end.

Definition search_files (query : string) (search_path : option string)
    : Eff FS string :=
  root_dir <- match search_path with
              | Some (String _ _ as given) => _resolve_path given
              | _ => ret get_documents_dir
              end ;;
  try_except
    (eval (fun fs =>
       let '(_, matches) := search_walk query (0%Z, []) (os_walk fs root_dir) in
       Returned (repr_list (take 50 matches))))
    (fun e => ret ("Error searching: " +:+ e)).

(** [subprocess.run(args, cwd=cwd, check=check)]: with [check], a status
    other than 0 is raised. *)
Definition subprocess_run (args : list string) (cwd : Path) (check : bool)
    : Eff FS unit :=
  status <- run_process args cwd ;;
  if check && negb (status =? 0)%Z
  then raise (called_process_error args status)
  else ret tt.

(** [git_manager]; the commit message is "Update" unless the caller gives
    one.  The first test is outside the [try]. *)
Definition git_manager (repo_path : string) (remote_url : option string)
    (commit_message : string) : Eff FS string :=
  let path := mkPath repo_path in
  found <- eval (fun fs => path_exists fs path) ;;
  if negb found then ret "Path not found."
  else
    try_except
      (has_git <- eval (fun fs => path_exists fs (joinpath path ".git")) ;;
       (if (has_git : bool) then ret tt
        else subprocess_run ["git"; "init"] path true) ;;;
       subprocess_run ["git"; "add"; "."] path true ;;;
       subprocess_run ["git"; "commit"; "-m"; commit_message] path false ;;;
       match remote_url with
       | Some (String _ _ as url) => subprocess_run ["git"; "push"; url] path false
       | _ => ret tt
       end ;;;
       ret "Git operations ran.")
      (fun e => ret ("Git error: " +:+ e)).

(** [manage_files]: the old generic tool mapped onto the new ones.  Nothing
    here is inside a [try]. *)
Definition manage_one (action : string) (target : option string) (f : string)
    : Eff FS (list string) :=
  let destination dir := path_text (joinpath (mkPath dir) (path_name (mkPath f))) in
  if String.eqb action "delete" then
    line <- delete_file f true ;; ret [line]
  else
    match target with
    | Some (String _ _ as dir) =>
        if String.eqb action "move" then
          shutil_move f (destination dir) ;;; ret ["Moved " +:+ f]
        else if String.eqb action "copy" then
          shutil_copy f (destination dir) ;;; ret ["Copied " +:+ f]
        else ret []
    | _ => ret []
    end.

Definition manage_files (action : string) (files : list string)
    (target : option string) : Eff FS string :=
  log <- collect files (manage_one action target) ;;
  ret (String.concat newline (concat log)).

(** *** Reading a walk *)

(** The files of a walk as the loops meet them: [Path(root) / file], and
    the pair of root and name that [search_files] works with. *)
Definition walked (walk : list (string * list string * list string)) : list Path :=
  walk ≫= (fun '(root, _, files) => (joinpath (mkPath root)) <$> files).

Definition walked_names (walk : list (string * list string * list string))
    : list (string * string) :=
  walk ≫= (fun '(root, _, files) => (fun file => (root, file)) <$> files).

(** The digest of a file that can be read. *)
Definition digest (fs : FS) (fpath : Path) : option string :=
  match read_bytes fs fpath with
  | Returned bytes => Some (md5_hexdigest bytes)
  | Raised _ => None
  end.

(** What [find_duplicates] holds after the files [l]: in [hashes] the first
    file of each digest met, in [dupes] one line per later file of a digest
    already met. *)
Definition dup_line_ok (fs : FS) (l : list Path) (line : string) : Prop :=
  exists (p q : Path) (h : string) (l1 l2 l3 : list Path),
    line = path_text p +:+ " == " +:+ path_text q
    /\ l = l1 ++ q :: l2 ++ p :: l3
    /\ digest fs q = Some h /\ digest fs p = Some h
    /\ Forall (fun x => digest fs x <> Some h) l1.

(** The line [find_large_files] reports for a file, if it reports one. *)
Definition large_line (fs : FS) (limit_bytes : Z) (fpath : Path) : option string :=
  match stat_size fs fpath with
  | Returned size =>
      if (limit_bytes <? size)%Z
      then Some (path_text fpath +:+ " (" +:+ format_mb size +:+ " MB)")
      else None
  | Raised _ => None
  end.

(** Where [search_files] starts: the given path resolved, or the documents
    directory when no path, or an empty one, is given. *)
Definition search_root (search_path : option string) (fs : FS) : PyResult Path :=
  match search_path with
  | Some (String _ _ as given) => fst (_resolve_path given fs)
  | _ => Returned get_documents_dir
  end.

Definition joined (entry : string * string) : string :=
  os_path_join (fst entry) (snd entry).

(** The name contains the query, both put in lower case by [str.lower]. *)
Definition matches (query : string) (entry : string * string) : bool :=
  contains (str_lower query) (str_lower (snd entry)).

End WithDisk.

(** The rest of the file system in memory, for files that hold ASCII texts
    (so that a file read as text is its bytes): a directory is a path that
    some file lies under, its entries are the files directly in it, a walk visits
    it as one directory; the digest of a content is the content itself; every command
    exits with status 0 except [git commit], which exits with 1 as it does
    when there is nothing to commit. *)
Fixpoint basename_from (s : string) (acc : string) : string :=
  match s with
  | EmptyString => acc
  | String c rest =>
      if Ascii.eqb c (Ascii.ascii_of_nat 47) then basename_from rest EmptyString
      else basename_from rest (acc +:+ String c EmptyString)
  end.

Definition basename (s : string) : string := basename_from s EmptyString.

(** The files that lie directly in a directory, and whether anything lies
    under it at any depth. *)
Definition files_under (fs : gmap string string) (dir : string) : list string :=
  filter (fun k => k = dir +:+ "/" +:+ basename k) (fst <$> map_to_list fs).

Definition is_folder (fs : gmap string string) (dir : string) : bool :=
  bool_decide (Exists (fun k => String.prefix (dir +:+ "/") k = true)
                      (fst <$> map_to_list fs)).

(** [mem_os] with directories: a path exists when it is a file or a folder. *)
Definition tree_os : OS := {|
  FS := gmap string string;
  Path := string;
  expanduser_home := "/home/u";
  mkPath := fun s => s;
  joinpath := fun p s => p +:+ "/" +:+ s;
  is_absolute := starts_with_slash;
  path_exists := fun fs p =>
    Returned (bool_decide (is_Some (fs !! p)) || is_folder fs p);
  path_resolve := fun _ p =>
    Returned (if starts_with_slash p then p else "/work/" +:+ p);
  path_parent := fun p => p;
  mkdir_parents := fun _ => ret tt;
  write_text := fun p content fs => (Returned tt, <[p := content]> fs);
  str_strip := ascii_strip;
  str_lower := ascii_lower
|}.

Definition mem_read (fs : gmap string string) (p : string) : PyResult string :=
  match fs !! p with
  | Some content => Returned content
  | None => Raised ("[Errno 2] No such file or directory: '" +:+ p +:+ "'")
  end.

Definition mem_disk : Disk (os := tree_os) :=
  Build_Disk tree_os
    (* path_text *) (fun p : string => p)
    (* path_name *) basename
    (* path_is_dir *)
    (fun (fs : gmap string string) (p : string) => Returned (is_folder fs p))
    (* iterdir *)
    (fun (fs : gmap string string) (p : string) => Returned (files_under fs p))
    (* read_text, read_bytes *) mem_read mem_read
    (* stat_size *)
    (fun (fs : gmap string string) (p : string) =>
       match mem_read fs p with
       | Returned content => Returned (Z.of_nat (String.length content))
       | Raised e => Raised e
       end)
    (* os_walk *)
    (fun (fs : gmap string string) (root : string) =>
       [(root, [], basename <$> files_under fs root)])
    (* os_path_join *) (fun root file => root +:+ "/" +:+ file)
    (* md5_hexdigest *) (fun bytes => bytes)
    (* format_mb *) (fun size => pretty size)
    (* repr_list *) (fun l => "[" +:+ String.concat ", " l +:+ "]")
    (* send2trash, rmtree, os_remove *)
    (fun (p : string) (fs : gmap string string) => (Returned tt, delete p fs))
    (fun (p : string) (fs : gmap string string) => (Returned tt, delete p fs))
    (fun (p : string) (fs : gmap string string) => (Returned tt, delete p fs))
    (* shutil_move *)
    (fun (src dst : string) (fs : gmap string string) =>
       match fs !! src with
       | Some content => (Returned tt, <[dst := content]> (delete src fs))
       | None =>
           (Raised ("[Errno 2] No such file or directory: '" +:+ src +:+ "'"), fs)
       end)
    (* shutil_copy *)
    (fun (src dst : string) (fs : gmap string string) =>
       match fs !! src with
       | Some content => (Returned tt, <[dst := content]> fs)
       | None =>
           (Raised ("[Errno 2] No such file or directory: '" +:+ src +:+ "'"), fs)
       end)
    (* run_process *)
    (fun (args : list string) (_ : string) (fs : gmap string string) =>
       (Returned (if bool_decide ("commit" ∈ args) then 1%Z else 0%Z), fs))
    (* called_process_error *)
    (fun args status =>
       "Command " +:+ String.concat " " args
       +:+ " returned non-zero exit status " +:+ pretty status +:+ ".").

(** A folder with two copies of one text and a third file. *)
Definition docs_fs : FS (OS := tree_os) :=
  {[ "/docs/a.txt" := "same"; "/docs/b.txt" := "same"; "/docs/c.txt" := "other";
     "/docs/.git/HEAD" := "ref" ]}.

End Files.

(** ** Reading a conversation *)
Module Transcript.
Import Backend.

(** The invocations a response of the model carries, none when it is an
    answer or when the call failed. *)
Definition asked (r : PyResult Message) : list ToolCall :=
  match r with
  | Returned msg => default [] (msg_tool_calls msg)
  | Raised _ => []
  end.

Definition id_and_name (tc : ToolCall) : string * string :=
  (tc_id tc, tc_name tc).

(** The objects the invocations are bound to, in order; an unbound name
    contributes nothing. *)
Definition bound (tcs : list ToolCall) : list PyObject :=
  omap (fun tc => globals !! tc_name tc) tcs.

(** A turn that belongs to a batch: the message of the model that carries
    the invocations, or a tool result. *)
Definition is_batch_turn (t : Turn) : bool :=
  match t with
  | Msg _ | ToolResult _ _ _ => true
  | Dict _ _ => false
  end.

End Transcript.

Import Tools Backend.

(** The namespace is a fixed table; proofs about arbitrary names never
    need to look inside it. *)
#[local] Opaque globals.

(** * tools.py: [write_to_file] *)

Section ToolsFacts.
Context {os : OS}.

Lemma _resolve_path_reads_only (path : string) (fs : FS) :
  snd (_resolve_path path fs) = fs.
Proof.
  unfold _resolve_path.
  destruct (common_dirs !! _); [reflexivity|].
  destruct (negb _); [|reflexivity].
  unfold bind, eval; simpl.
  destruct (path_exists fs _) as [[]|]; reflexivity.
Qed.





End ToolsFacts.



(** * backend.py: the loop *)

Section LoopFacts.
Context {env : Env}.

Implicit Types (m : Machine env) (tc : ToolCall) (s : Step).

(** ** The code agrees with its replay *)

Lemma dispatcher_eq tc args m :
  dispatcher (tc_name tc) args m =
  (Returned (step_result (fst (run_step tc args (world m)))),
   {| history := history m; model := model m;
      world := snd (run_step tc args (world m));
      trace := trace m ++ step_log (fst (run_step tc args (world m))) |}).
Proof.
  unfold dispatcher, run_step.
  generalize (globals !! tc_name tc). intros [f|].
  - unfold try_except, in_world. destruct m as [h md w t]; simpl.
    destruct (py_call f args w) as [[text|e] w']; reflexivity.
  - destruct m as [h md w t]; unfold try_except, ret; simpl.
    rewrite app_nil_r. reflexivity.
Qed.

Lemma tool_call_body_eq tc m :
  tool_call_body tc m =
  match json_loads (tc_arguments tc) with
  | Raised e => (Raised e, m)
  | Returned args =>
      let sw := run_step tc args (world m) in
      (Returned tt,
       {| history := history m ++ [step_turn (fst sw)]; model := model m;
          world := snd sw; trace := trace m ++ step_block (fst sw) |})
  end.
Proof.
  unfold tool_call_body, bind at 1, eval.
  destruct (json_loads (tc_arguments tc)) as [args|e]; [|reflexivity].
  unfold bind at 1, yield, emit. unfold bind at 1.
  rewrite dispatcher_eq. simpl.
  unfold bind, history_append, yield, emit; simpl.
  assert (Hname : tc_name (step_call (fst (run_step tc args (world m)))) = tc_name tc
                  /\ tc_id (step_call (fst (run_step tc args (world m)))) = tc_id tc).
  { unfold run_step. destruct (globals !! tc_name tc); [|split; reflexivity].
    destruct (py_call _ _ _); split; reflexivity. }
  destruct Hname as [Hn Hi].
  unfold step_block, step_turn. rewrite Hn, Hi.
  rewrite <- !app_assoc. reflexivity.
Qed.

Lemma for_each_eq (tcs : list ToolCall) m :
  for_each tcs tool_call_body m =
  let '(steps, stop, w) := run_batch tcs (world m) in
  (match stop with None => Returned tt | Some e => Raised e end,
   {| history := history m ++ (step_turn <$> steps); model := model m;
      world := w; trace := trace m ++ (steps ≫= step_block) |}).
Proof.
  revert m. induction tcs as [|tc tcs IH]; intros m; simpl.
  - destruct m; simpl. rewrite !app_nil_r. reflexivity.
  - unfold bind. rewrite tool_call_body_eq.
    destruct (json_loads (tc_arguments tc)) as [args|e].
    + destruct (run_step tc args (world m)) as [s w1] eqn:Hs; simpl.
      rewrite IH; simpl.
      destruct (run_batch tcs w1) as [[steps stop] w2].
      rewrite <- !app_assoc. reflexivity.
    + destruct m; simpl. rewrite !app_nil_r. reflexivity.
Qed.

Lemma chat_step_eq (user_input : string) m :
  chat_step user_input m =
  let '(turns, effects, w) := turn_summary user_input m in
  (Returned tt,
   {| history := history m ++ turns; model := model m; world := w;
      trace := trace m ++ effects |}).
Proof.
  unfold chat_step, turn_summary.
  unfold bind at 1, history_append at 1, try_except.
  unfold bind at 1, create at 1, in_world; simpl.
  destruct (completions_create _ _ true (world m)) as [[msg|e] w1]; simpl.
  2: { unfold yield, emit; simpl. rewrite <- !app_assoc. reflexivity. }
  destruct (msg_tool_calls msg) as [[|tc tcs]|].
  1, 3: unfold bind, history_append, yield, emit; simpl;
        rewrite <- !app_assoc; reflexivity.
  unfold bind at 1, history_append at 1. unfold bind at 1.
  rewrite for_each_eq. cbn [world history model trace].
  destruct (run_batch (tc :: tcs) w1) as [[steps stop] w2].
  destruct stop as [e|].
  { unfold yield, emit; simpl. rewrite <- !app_assoc. reflexivity. }
  unfold bind at 1, create at 1, in_world. cbn [world history model trace].
  rewrite <- !app_assoc. simpl.
  destruct (completions_create _ _ false w2) as [[final|e] w3].
  - unfold bind, history_append, yield, emit; simpl.
    rewrite <- ?app_assoc; simpl; rewrite <- ?app_assoc; reflexivity.
  - unfold yield, emit; simpl.
    rewrite <- ?app_assoc; simpl; rewrite <- ?app_assoc; reflexivity.
Qed.

(** ** What the replay records *)

Lemma run_step_call tc args w : step_call (fst (run_step tc args w)) = tc.
Proof.
  unfold run_step. destruct (globals !! tc_name tc); [|reflexivity].
  destruct (py_call _ _ _); reflexivity.
Qed.

Lemma run_step_ok tc args w :
  json_loads (tc_arguments tc) = Returned args ->
  step_ok (fst (run_step tc args w)).
Proof.
  intros Hargs. unfold step_ok. rewrite run_step_call.
  unfold run_step. destruct (globals !! tc_name tc) as [f|] eqn:Hf.
  - destruct (py_call f args w) as [r w']; simpl.
    split; [assumption|]. exists r. split; reflexivity.
  - simpl. split; [assumption|]. split; reflexivity.
Qed.

Lemma run_batch_ok (tcs : list ToolCall) w :
  Forall step_ok (run_batch tcs w).1.1.
Proof.
  revert w. induction tcs as [|tc tcs IH]; intros w; simpl.
  - constructor.
  - destruct (json_loads (tc_arguments tc)) as [args|e] eqn:Hargs;
      [|constructor].
    pose proof (run_step_ok tc args w Hargs) as Hok.
    destruct (run_step tc args w) as [s w1]; simpl in Hok.
    specialize (IH w1). destruct (run_batch tcs w1) as [[ss stop] w2].
    simpl in *. constructor; assumption.
Qed.

(** The steps are those of a prefix of the batch: all of it, or what
    comes before the first payload that [json.loads] rejects. *)
Lemma run_batch_calls (tcs : list ToolCall) w :
  match (run_batch tcs w).1.2 with
  | None => step_call <$> (run_batch tcs w).1.1 = tcs
  | Some e =>
      exists tc rest,
        tcs = (step_call <$> (run_batch tcs w).1.1) ++ tc :: rest
        /\ json_loads (tc_arguments tc) = Raised e
  end.
Proof.
  revert w. induction tcs as [|tc tcs IH]; intros w; simpl.
  - reflexivity.
  - destruct (json_loads (tc_arguments tc)) as [args|e] eqn:Hargs; simpl.
    2: { exists tc, tcs. split; [reflexivity|assumption]. }
    pose proof (run_step_call tc args w) as Hcall.
    destruct (run_step tc args w) as [s w1]; simpl in Hcall.
    specialize (IH w1). destruct (run_batch tcs w1) as [[ss [e|]] w2];
      simpl in *.
    + destruct IH as (tc' & rest & -> & He).
      exists tc', rest. rewrite Hcall. split; [reflexivity|assumption].
    + f_equal; assumption.
Qed.

Lemma run_batch_parses (tcs : list ToolCall) w :
  Forall parses tcs -> (run_batch tcs w).1.2 = None.
Proof.
  intros Hall. pose proof (run_batch_calls tcs w) as H.
  destruct ((run_batch tcs w).1.2) as [e|]; [|reflexivity].
  destruct H as (tc & rest & Htcs & He).
  rewrite Htcs in Hall. apply Forall_app in Hall as [_ Hall].
  apply Forall_cons in Hall as [[args Hargs] _]. congruence.
Qed.

(** ** Reading the trace of a batch *)

Lemma events_of_app (t1 t2 : list Effect) :
  events_of (t1 ++ t2) = events_of t1 ++ events_of t2.
Proof. apply omap_app. Qed.

Lemma appended_app (t1 t2 : list Effect) :
  appended (t1 ++ t2) = appended t1 ++ appended t2.
Proof. apply omap_app. Qed.

Lemma creates_app (t1 t2 : list Effect) :
  creates (t1 ++ t2) = creates t1 ++ creates t2.
Proof. apply omap_app. Qed.

Lemma step_log_quiet s :
  events_of (step_log s) = [] /\ appended (step_log s) = []
  /\ creates (step_log s) = [].
Proof. unfold step_log. destruct (step_dispatch s) as [[f r]|]; auto. Qed.

Lemma events_of_blocks (steps : list Step) :
  events_of (steps ≫= step_block) =
  ((tc_name ∘ step_call) <$> steps) ≫= status_pair.
Proof.
  induction steps as [|s steps IH]; [reflexivity|].
  rewrite fmap_cons, !bind_cons, events_of_app, IH. f_equal.
  unfold step_block. rewrite !events_of_app.
  destruct (step_log_quiet s) as (-> & _). reflexivity.
Qed.

Lemma appended_blocks (steps : list Step) :
  appended (steps ≫= step_block) = step_turn <$> steps.
Proof.
  induction steps as [|s steps IH]; [reflexivity|].
  rewrite fmap_cons, bind_cons, appended_app, IH.
  unfold step_block. rewrite !appended_app.
  destruct (step_log_quiet s) as (_ & -> & _). reflexivity.
Qed.

Lemma creates_blocks (steps : list Step) : creates (steps ≫= step_block) = [].
Proof.
  induction steps as [|s steps IH]; [reflexivity|].
  rewrite bind_cons, creates_app, IH.
  unfold step_block. rewrite !creates_app.
  destruct (step_log_quiet s) as (_ & _ & ->). reflexivity.
Qed.

Lemma tool_results_of_steps (steps : list Step) :
  tool_results (step_turn <$> steps) =
  (fun s => (tc_id (step_call s), tc_name (step_call s))) <$> steps.
Proof.
  induction steps as [|s steps IH]; [reflexivity|].
  rewrite !fmap_cons. simpl. rewrite IH. reflexivity.
Qed.

(** ** One call of [chat_step] *)

Lemma turn_effects_eq (user_input : string) m :
  turn_effects user_input m = (turn_summary user_input m).1.2.
Proof.
  unfold turn_effects. rewrite chat_step_eq.
  destruct (turn_summary user_input m) as [[turns effects] w]; simpl.
  apply drop_app_length.
Qed.

Lemma turn_turns_eq (user_input : string) m :
  turn_turns user_input m = (turn_summary user_input m).1.1.
Proof.
  unfold turn_turns. rewrite chat_step_eq.
  destruct (turn_summary user_input m) as [[turns effects] w]; simpl.
  apply drop_app_length.
Qed.

Lemma chat_step_returns (user_input : string) m :
  fst (chat_step user_input m) = Returned tt.
Proof.
  rewrite chat_step_eq.
  destruct (turn_summary user_input m) as [[turns effects] w]. reflexivity.
Qed.

Lemma chat_step_trace (user_input : string) m :
  trace (snd (chat_step user_input m)) = trace m ++ turn_effects user_input m.
Proof.
  rewrite turn_effects_eq, chat_step_eq.
  destruct (turn_summary user_input m) as [[turns effects] w]. reflexivity.
Qed.

Lemma chat_step_history (user_input : string) m :
  history (snd (chat_step user_input m)) = history m ++ turn_turns user_input m.
Proof.
  rewrite turn_turns_eq, chat_step_eq.
  destruct (turn_summary user_input m) as [[turns effects] w]. reflexivity.
Qed.

Lemma chat_step_model (user_input : string) m :
  model (snd (chat_step user_input m)) = model m.
Proof.
  rewrite chat_step_eq.
  destruct (turn_summary user_input m) as [[turns effects] w]. reflexivity.
Qed.

(** Every call of [chat_step] goes one of the five ways. *)
Lemma turn_shape (user_input : string) m :
  TurnShape user_input m (turn_turns user_input m) (turn_effects user_input m).
Proof.
  rewrite turn_turns_eq, turn_effects_eq.
  unfold turn_summary.
  destruct (completions_create (model m) (history m ++ [user_turn user_input])
              true (world m)) as [r1 w1] eqn:Hfirst.
  assert (H1 : first_response user_input m = r1)
    by (unfold first_response; rewrite Hfirst; reflexivity).
  destruct r1 as [msg|e]; [|apply FirstCallFailed; assumption].
  destruct (msg_tool_calls msg) as [[|tc tcs]|] eqn:Hcalls.
  1, 3: apply Answered; [assumption|auto].
  pose proof (run_batch_ok (tc :: tcs) w1) as Hok.
  pose proof (run_batch_calls (tc :: tcs) w1) as Hprefix.
  destruct (run_batch (tc :: tcs) w1) as [[steps stop] w2].
  cbn [fst snd] in Hok, Hprefix.
  destruct stop as [e|].
  - destruct Hprefix as (tc' & rest & Htcs & He).
    apply (PayloadRejected _ _ msg steps tc' rest e); try assumption.
    rewrite Hcalls, Htcs. reflexivity.
  - assert (Hne : steps <> []) by (intros ->; discriminate Hprefix).
    destruct (completions_create (model m) _ false w2) as [[final|e] w3].
    + apply Synthesised; try assumption. rewrite Hcalls, Hprefix. reflexivity.
    + apply SynthesisFailed; try assumption. rewrite Hcalls, Hprefix. reflexivity.
Qed.

(** ** The events of a turn *)

Lemma status_pairs_not_content (names : list string) :
  Forall (fun ev => is_content ev = false) (names ≫= status_pair).
Proof.
  induction names as [|n names IH]; [constructor|].
  rewrite bind_cons. apply Forall_app. split; [|assumption].
  repeat constructor.
Qed.

(** C8. The events of a user turn are pairs "Running f..." and
    "Completed f.", one pair per invocation the loop executed (the batch
    or a prefix of it) and in that order, followed by exactly one Content
    event, which is the last event of the turn.  In the trace each call
    of a handler lies inside the block of its invocation, after the
    Running event and before the Completed event; nothing is called and
    nothing is yielded outside the blocks except the final Content. *)
Theorem events_end_with_content (user_input : string) m :
  exists (steps : list Step) (pre post : list Effect) (v : option string),
    turn_effects user_input m =
      pre ++ (steps ≫= step_block) ++ post ++ [EYield (Content v)]
    /\ events_of pre = [] /\ events_of post = []
    /\ calls pre = [] /\ calls post = []
    /\ turn_events user_input m =
         (((tc_name ∘ step_call) <$> steps) ≫= status_pair) ++ [Content v]
    /\ Forall (fun ev => is_content ev = false)
              (((tc_name ∘ step_call) <$> steps) ≫= status_pair)
    /\ last (turn_events user_input m) = Some (Content v)
    /\ Forall step_ok steps
    /\ (steps = []
        \/ exists msg rest,
             first_response user_input m = Returned msg
             /\ msg_tool_calls msg = Some ((step_call <$> steps) ++ rest)).
Proof.
  pose proof (turn_shape user_input m) as Hshape.
  assert (Hlayout : forall steps pre post v,
    turn_effects user_input m =
      pre ++ (steps ≫= step_block) ++ post ++ [EYield (Content v)] ->
    events_of pre = [] -> events_of post = [] ->
    turn_events user_input m =
      (((tc_name ∘ step_call) <$> steps) ≫= status_pair) ++ [Content v]).
  { intros steps pre post v Heff Hpre Hpost. unfold turn_events.
    rewrite Heff, !events_of_app, events_of_blocks, Hpre, Hpost.
    reflexivity. }
  destruct Hshape
    as [e H1|msg H1 Hnone|msg steps tc rest e H1 Hcalls Hok He
        |msg steps e H1 Hcalls Hne Hok|msg steps final H1 Hcalls Hne Hok].
  1: exists [], (opening user_input m (Raised e)), [], (Some ("Error: " +:+ e)).
  2: exists [], (opening user_input m (Returned msg) ++ [EAppend (answer_turn msg)]),
            [], (msg_content msg).
  3: exists steps, (opening user_input m (Returned msg) ++ [EAppend (Msg msg)]),
            [], (Some ("Error: " +:+ e)).
  4: exists steps, (opening user_input m (Returned msg) ++ [EAppend (Msg msg)]),
            [synthesis user_input m msg steps (Raised e)],
            (Some ("Error: " +:+ e)).
  5: exists steps, (opening user_input m (Returned msg) ++ [EAppend (Msg msg)]),
            [synthesis user_input m msg steps (Returned final);
             EAppend (answer_turn final)],
            (msg_content final).
  all: match goal with
       | |- ?layout /\ _ =>
           assert (Heff : layout)
             by (unfold batch_effects, failed; simpl;
                 rewrite <- ?app_assoc; reflexivity)
       end.
  all: pose proof (Hlayout _ _ _ _ Heff eq_refl eq_refl) as Hev.
  all: split; [exact Heff|].
  all: do 4 (split; [reflexivity|]).
  all: split; [exact Hev|].
  all: split; [apply status_pairs_not_content|].
  all: split; [rewrite Hev; apply last_snoc|].
  - split; [constructor|left; reflexivity].
  - split; [constructor|left; reflexivity].
  - split; [assumption|]. right. exists msg, (tc :: rest). auto.
  - split; [assumption|]. right. exists msg, []. rewrite app_nil_r. auto.
  - split; [assumption|]. right. exists msg, []. rewrite app_nil_r. auto.
Qed.

(** ** The history only grows *)

Lemma turn_turns_appended (user_input : string) m :
  turn_turns user_input m = appended (turn_effects user_input m).
Proof.
  destruct (turn_shape user_input m); unfold batch_effects, batch_turns;
    rewrite ?appended_app, ?appended_blocks; simpl;
    rewrite <- ?app_assoc, ?app_nil_r; reflexivity.
Qed.

Lemma turn_turns_start (user_input : string) m :
  exists added, turn_turns user_input m = user_turn user_input :: added.
Proof.
  destruct (turn_shape user_input m); unfold batch_turns; simpl; eauto.
Qed.

Lemma chat_step_extends (user_input : string) m :
  exists added,
    history (snd (chat_step user_input m)) =
    history m ++ user_turn user_input :: added.
Proof.
  destruct (turn_turns_start user_input m) as [added Hadded].
  exists added. rewrite chat_step_history, Hadded. reflexivity.
Qed.

Lemma run_op_extends (op : Op) m :
  fst (run_op op m) = Returned tt
  /\ exists added,
       history (snd (run_op op m)) = history m ++ added
       /\ match op with
          | ChatStep _ => 1 <= length added
          | SetModel _ => added = []
          end.
Proof.
  destruct op as [user_input|new_model]; simpl.
  - split; [apply chat_step_returns|].
    destruct (chat_step_extends user_input m) as [added Hadded].
    exists (user_turn user_input :: added). split; [assumption|simpl; lia].
  - split; [reflexivity|]. exists []. rewrite app_nil_r. auto.
Qed.

Lemma session_extends (ops : list Op) m :
  fst (for_each ops run_op m) = Returned tt
  /\ exists added,
       history (snd (for_each ops run_op m)) = history m ++ added
       /\ chat_steps ops <= length added.
Proof.
  revert m. induction ops as [|op ops IH]; intros m.
  - simpl. split; [reflexivity|]. exists []. rewrite app_nil_r. auto.
  - destruct (run_op_extends op m) as (Hret & added1 & Hh1 & Hlen1).
    cbn [for_each]. unfold bind.
    destruct (run_op op m) as [r m1]; simpl in Hret, Hh1; subst r.
    destruct (IH m1) as (Hret2 & added2 & Hh2 & Hlen2).
    split; [assumption|].
    exists (added1 ++ added2). rewrite Hh2, Hh1, <- app_assoc.
    split; [reflexivity|]. rewrite length_app.
    destruct op; simpl; subst; simpl; lia.
Qed.

(** C7. A session starts with the system turn alone.  Whatever sequence
    of [chat_step] and [set_model] follows, no call raises, the system
    turn is still at index 0, every turn that was in the history stays at
    its index (operations only append), and each [chat_step] makes the
    history strictly longer, so after the session it holds more turns
    than there were user turns. *)
Theorem system_turn_stays_first (model : string) (w : World) (ops : list Op) :
  history (init model w) = [system_turn]
  /\ fst (for_each ops run_op (init model w)) = Returned tt
  /\ history (snd (for_each ops run_op (init model w))) !! 0 = Some system_turn
  /\ chat_steps ops < length (history (snd (for_each ops run_op (init model w))))
  /\ (forall m i t,
        history m !! i = Some t ->
        history (snd (for_each ops run_op m)) !! i = Some t)
  /\ (forall m user_input,
        length (history m) < length (history (snd (chat_step user_input m)))
        /\ exists added,
             history (snd (chat_step user_input m)) = history m ++ added).
Proof.
  destruct (session_extends ops (init model w)) as (Hret & added & Hh & Hlen).
  split; [reflexivity|]. split; [assumption|]. split; [|split; [|split]].
  - rewrite Hh. reflexivity.
  - rewrite Hh. simpl. lia.
  - intros m i t Hi.
    destruct (session_extends ops m) as (_ & added' & Hh' & _).
    rewrite Hh'. apply lookup_app_l_Some. assumption.
  - intros m user_input.
    destruct (chat_step_extends user_input m) as [added' Hadded].
    rewrite Hadded. split; [rewrite length_app; simpl; lia|eauto].
Qed.

(** ** When the model cannot be reached *)

Lemma no_create_in_blocks (steps : list Step) md msgs tools r :
  ECreate md msgs tools r ∉ steps ≫= step_block.
Proof.
  intros Hin.
  assert (Hc : tools ∈ creates (steps ≫= step_block)).
  { apply list_elem_of_omap. eexists. split; [exact Hin|reflexivity]. }
  rewrite creates_blocks in Hc. inversion Hc.
Qed.

(** C6. If a model call of the turn raised [e] (the trace shows it), the
    call of [chat_step] still returns; the events of the turn are the
    status pairs of the invocations already executed followed by the one
    Content event "Error: e"; the history is exactly the conversation
    that was handed to the failing call, hence everything appended so far
    and nothing else; and a further [chat_step] runs on it as usual.
    When the failing call is the first one (the one with the catalog),
    the history is the old one plus the user turn. *)
Theorem model_failure_ends_turn (user_input : string) m
    (md : string) (msgs : list Turn) (tools : bool) (e : string) :
  ECreate md msgs tools (Raised e) ∈ turn_effects user_input m ->
  fst (chat_step user_input m) = Returned tt
  /\ (exists names,
        turn_events user_input m =
          (names ≫= status_pair) ++ [Content (Some ("Error: " +:+ e))]
        /\ Forall (fun ev => is_content ev = false) (names ≫= status_pair))
  /\ history (snd (chat_step user_input m)) = msgs
  /\ history (snd (chat_step user_input m)) =
       history m ++ appended (turn_effects user_input m)
  /\ (tools = true ->
        history (snd (chat_step user_input m)) = history m ++ [user_turn user_input]
        /\ length (history (snd (chat_step user_input m))) = length (history m) + 1)
  /\ (forall next_input,
        fst (chat_step next_input (snd (chat_step user_input m))) = Returned tt
        /\ exists added,
             history (snd (chat_step next_input (snd (chat_step user_input m)))) =
             history (snd (chat_step user_input m)) ++ user_turn next_input :: added).
Proof.
  intros Hin.
  split; [apply chat_step_returns|].
  rewrite chat_step_history.
  assert (Hrest :
    (exists names,
        turn_events user_input m =
          (names ≫= status_pair) ++ [Content (Some ("Error: " +:+ e))]
        /\ Forall (fun ev => is_content ev = false) (names ≫= status_pair))
    /\ history m ++ turn_turns user_input m = msgs
    /\ (tools = true -> turn_turns user_input m = [user_turn user_input])).
  { unfold turn_events.
    destruct (turn_shape user_input m)
      as [e0 H1|msg H1 Hnone|msg steps tc rest e0 H1 Hcalls Hok He
          |msg steps e0 H1 Hcalls Hne Hok|msg steps final H1 Hcalls Hne Hok];
      unfold batch_effects, opening, synthesis, failed in Hin |- *;
      rewrite ?elem_of_app, ?elem_of_cons, ?elem_of_nil in Hin.
    - destruct Hin as [[Hin|[Hin|[]]]|[Hin|[]]]; try discriminate Hin.
      injection Hin as -> -> -> ->.
      split; [exists []; split; [reflexivity|constructor]|].
      split; [reflexivity|]. intros _. reflexivity.
    - destruct Hin as [[Hin|[Hin|[]]]|[Hin|[Hin|[]]]]; discriminate Hin.
    - destruct Hin as [[[Hin|[Hin|[]]]|[[Hin|[]]|Hin]]|[Hin|[]]];
        try discriminate Hin.
      exfalso. exact (no_create_in_blocks _ _ _ _ _ Hin).
    - destruct Hin as [[[Hin|[Hin|[]]]|[[Hin|[]]|Hin]]|[Hin|[Hin|[]]]];
        try discriminate Hin.
      + exfalso. exact (no_create_in_blocks _ _ _ _ _ Hin).
      + injection Hin as -> -> -> ->.
        split.
        * exists ((tc_name ∘ step_call) <$> steps).
          split; [|apply status_pairs_not_content].
          rewrite !events_of_app, events_of_blocks. reflexivity.
        * split; [reflexivity|]. intros Hfalse. discriminate Hfalse.
    - destruct Hin as [[[Hin|[Hin|[]]]|[[Hin|[]]|Hin]]|[Hin|[Hin|[Hin|[]]]]];
        try discriminate Hin.
      exfalso. exact (no_create_in_blocks _ _ _ _ _ Hin). }
  destruct Hrest as (Hev & Hmsgs & Hfirst).
  split; [exact Hev|]. split; [exact Hmsgs|].
  split; [rewrite turn_turns_appended; reflexivity|].
  split.
  - intros Htools. rewrite (Hfirst Htools).
    split; [reflexivity|]. rewrite length_app. reflexivity.
  - intros next_input. rewrite <- chat_step_history.
    split; [apply chat_step_returns|apply chat_step_extends].
Qed.

(** ** The Dispatcher *)

(** When the payload parses, the name is bound and the call of the bound
    object raises [e], the Dispatcher block returns the text
    "Execution Error: e" and raises nothing; the loop body returns too,
    having appended that text as the tool result of the invocation and
    yielded "Completed"; and the loop goes on with the remaining
    invocations from that state. *)
Lemma raised_call_is_caught tc (rest : list ToolCall)
    (args : Json) (f : PyObject) (e : string) (w' : World) m :
  json_loads (tc_arguments tc) = Returned args ->
  globals !! tc_name tc = Some f ->
  py_call f args (world m) = (Raised e, w') ->
  let text := "Execution Error: " +:+ e in
  let after :=
    {| history := history m ++ [ToolResult (tc_id tc) (tc_name tc) text];
       model := model m; world := w';
       trace := trace m ++ [ EYield (running (tc_name tc));
                             ECall f args (Raised e);
                             EAppend (ToolResult (tc_id tc) (tc_name tc) text);
                             EYield (completed (tc_name tc)) ] |} in
  dispatcher (tc_name tc) args m =
    (Returned text,
     {| history := history m; model := model m; world := w';
        trace := trace m ++ [ECall f args (Raised e)] |})
  /\ tool_call_body tc m = (Returned tt, after)
  /\ for_each (tc :: rest) tool_call_body m = for_each rest tool_call_body after.
Proof.
  intros Hargs Hf Hcall text after.
  assert (Hstep : run_step tc args (world m) =
                  ({| step_call := tc; step_args := args;
                      step_dispatch := Some (f, Raised e);
                      step_result := text |}, w')).
  { unfold run_step. rewrite Hf, Hcall. reflexivity. }
  assert (Hbody : tool_call_body tc m = (Returned tt, after)).
  { rewrite tool_call_body_eq, Hargs. cbv zeta. rewrite Hstep. reflexivity. }
  split; [|split].
  - rewrite dispatcher_eq, Hstep. reflexivity.
  - exact Hbody.
  - cbn [for_each]. unfold bind at 1. rewrite Hbody. reflexivity.
Qed.

Lemma catalog_is_bound (name : string) :
  name ∈ catalog_names -> is_Some (globals !! name).
Proof.
  assert (H : Forall (fun n => is_Some (globals !! n)) catalog_names).
  { apply Forall_forall. intros n Hn. apply list_elem_of_In in Hn.
    vm_compute in Hn.
    repeat (destruct Hn as [<-|Hn]; [vm_compute; eauto|]). destruct Hn. }
  intros Hin. exact (proj1 (Forall_forall _ _) H name Hin).
Qed.

(** C9, as amended.  The Dispatcher looks the name up in the namespace of
    [backend.py]: a bound name is called, whatever it is bound to, and the
    outcome of the call becomes the result; an unbound name, and only an
    unbound name, is reported as not implemented without any call.  The
    namespace holds [is_directory], the modules [os] and [json], the
    catalog and the class, none of which the catalog advertises; it does
    not hold [manage_files], which [tools.py] defines but [backend.py]
    does not import. *)
Theorem dispatch_follows_globals (func_name : string) (args : Json) m :
  match globals !! func_name with
  | Some f =>
      let rw := py_call f args (world m) in
      dispatcher func_name args m =
        (Returned (result_text rw.1),
         {| history := history m; model := model m; world := rw.2;
            trace := trace m ++ [ECall f args rw.1] |})
  | None =>
      dispatcher func_name args m = (Returned (not_implemented func_name), m)
  end
  /\ (globals !! "is_directory" = Some (FunctionObj "is_directory")
      /\ "is_directory" ∉ catalog_names)
  /\ (globals !! "os" = Some (ModuleObj "os") /\ "os" ∉ catalog_names)
  /\ (globals !! "json" = Some (ModuleObj "json") /\ "json" ∉ catalog_names)
  /\ (globals !! "TOOLS_SCHEMA" = Some CatalogObj
      /\ "TOOLS_SCHEMA" ∉ catalog_names)
  /\ (globals !! "RobotBackend" = Some (ClassObj "RobotBackend")
      /\ "RobotBackend" ∉ catalog_names)
  /\ ("manage_files" ∈ tools_module_functions
      /\ ("manage_files" ∉ catalog_names)
      /\ globals !! "manage_files" = None).
Proof.
  split.
  - pose proof (dispatcher_eq (invocation EmptyString func_name EmptyString)
                  args m) as Heq.
    unfold run_step in Heq. cbn [tc_name invocation] in Heq.
    destruct (globals !! func_name) as [f|].
    + cbv zeta. destruct (py_call f args (world m)) as [r w']. exact Heq.
    + rewrite Heq. destruct m; simpl. rewrite app_nil_r. reflexivity.
  - assert (Hout : forall n : string,
              bool_decide (n ∈ catalog_names) = false -> n ∉ catalog_names).
    { intros n Hn Hin. apply bool_decide_eq_false in Hn. contradiction. }
    repeat split; try (apply Hout; vm_compute; reflexivity);
      try (vm_compute; reflexivity).
    apply list_elem_of_In. vm_compute. do 24 right. left. reflexivity.
Qed.

(** ** A batch whose payloads all parse *)

(** Such a batch is executed to its end and followed by the one model
    call without the catalog. *)
Lemma batch_completes (user_input : string) m (msg : Message)
    (tcs : list ToolCall) :
  first_response user_input m = Returned msg ->
  msg_tool_calls msg = Some tcs ->
  tcs <> [] ->
  Forall parses tcs ->
  exists (steps : list Step) (r : PyResult Message),
    step_call <$> steps = tcs
    /\ Forall step_ok steps
    /\ turn_effects user_input m =
         batch_effects user_input m msg steps
         ++ synthesis user_input m msg steps r
            :: match r with
               | Returned final =>
                   [EAppend (answer_turn final);
                    EYield (Content (msg_content final))]
               | Raised e => [failed e]
               end
    /\ turn_turns user_input m =
         batch_turns user_input msg steps
         ++ match r with
            | Returned final => [answer_turn final]
            | Raised _ => []
            end.
Proof.
  intros Hfirst Hcalls Hne Hparse.
  destruct (turn_shape user_input m)
    as [e H1|msg' H1 Hnone|msg' steps tc rest e H1 Hcalls' Hok He
        |msg' steps e H1 Hcalls' Hne' Hok|msg' steps final H1 Hcalls' Hne' Hok];
    rewrite Hfirst in H1; try discriminate H1; injection H1 as <-.
  - exfalso. destruct Hnone as [Hnone|Hnone]; rewrite Hcalls in Hnone;
      [discriminate Hnone|injection Hnone as ->; exact (Hne eq_refl)].
  - exfalso. rewrite Hcalls in Hcalls'. injection Hcalls' as ->.
    apply Forall_app in Hparse as [_ Hparse].
    apply Forall_cons in Hparse as [[args Hargs] _]. congruence.
  - rewrite Hcalls in Hcalls'. injection Hcalls' as ->.
    exists steps, (Raised e). rewrite app_nil_r. auto.
  - rewrite Hcalls in Hcalls'. injection Hcalls' as ->.
    exists steps, (Returned final). auto.
Qed.

(** On such a batch there is one tool result per invocation, in the order
    of the batch and under the id and name of its invocation. *)
Lemma batch_results_in_order (user_input : string) m (msg : Message)
    (tcs : list ToolCall) :
  first_response user_input m = Returned msg ->
  msg_tool_calls msg = Some tcs ->
  tcs <> [] ->
  Forall parses tcs ->
  tool_results (turn_turns user_input m) =
  (fun tc => (tc_id tc, tc_name tc)) <$> tcs.
Proof.
  intros Hfirst Hcalls Hne Hparse.
  destruct (batch_completes user_input m msg tcs Hfirst Hcalls Hne Hparse)
    as (steps & r & <- & _ & _ & ->).
  unfold tool_results, batch_turns. rewrite !omap_app.
  fold (tool_results (step_turn <$> steps)). rewrite tool_results_of_steps.
  rewrite <- list_fmap_compose.
  destruct r; simpl; rewrite app_nil_r; reflexivity.
Qed.

(** On such a batch the model is called twice: with the catalog, then
    without it. *)
Lemma one_synthesis_pass (user_input : string) m (msg : Message)
    (tcs : list ToolCall) :
  first_response user_input m = Returned msg ->
  msg_tool_calls msg = Some tcs ->
  tcs <> [] ->
  Forall parses tcs ->
  creates (turn_effects user_input m) = [true; false].
Proof.
  intros Hfirst Hcalls Hne Hparse.
  destruct (batch_completes user_input m msg tcs Hfirst Hcalls Hne Hparse)
    as (steps & r & _ & _ & -> & _).
  unfold batch_effects. rewrite !creates_app, creates_blocks.
  destruct r; reflexivity.
Qed.

(** The catalog is offered once per turn, in the first call; a second
    call, if there is one, is made without it. *)
Lemma catalog_offered_once (user_input : string) m :
  creates (turn_effects user_input m) = [true]
  \/ creates (turn_effects user_input m) = [true; false].
Proof.
  destruct (turn_shape user_input m); unfold batch_effects;
    rewrite ?creates_app, ?creates_blocks; simpl; auto.
Qed.

(** C3, as amended.  In a batch whose payloads all parse, an invocation
    whose name is unbound in the namespace of [backend.py] (such a name
    is never one of the catalog) gets the tool result "Error: Function
    <name> not implemented."; the Dispatcher block returns that text for
    the name in any state, raising nothing and changing nothing; and the
    turn goes on to the model call without the catalog. *)
Theorem unbound_name_not_implemented (user_input : string) m
    (msg : Message) (tcs : list ToolCall) tc :
  first_response user_input m = Returned msg ->
  msg_tool_calls msg = Some tcs ->
  Forall parses tcs ->
  tc ∈ tcs ->
  globals !! tc_name tc = None ->
  (tc_name tc ∉ catalog_names)
  /\ (forall args m',
        dispatcher (tc_name tc) args m' =
        (Returned (not_implemented (tc_name tc)), m'))
  /\ (ToolResult (tc_id tc) (tc_name tc) (not_implemented (tc_name tc))
       ∈ turn_turns user_input m)
  /\ creates (turn_effects user_input m) = [true; false]
  /\ fst (chat_step user_input m) = Returned tt.
Proof.
  intros Hfirst Hcalls Hparse Hin Hunbound.
  assert (Hne : tcs <> []) by (intros ->; inversion Hin).
  split; [|split; [|split; [|split]]].
  - intros Hcat. apply catalog_is_bound in Hcat as [f Hf]. congruence.
  - intros args m'. unfold dispatcher, try_except. rewrite Hunbound.
    reflexivity.
  - destruct (batch_completes user_input m msg tcs Hfirst Hcalls Hne Hparse)
      as (steps & r & <- & Hok & _ & ->).
    apply list_elem_of_fmap in Hin as (s & -> & Hs).
    apply elem_of_app. left. unfold batch_turns.
    apply elem_of_app. right.
    apply list_elem_of_fmap. exists s. split; [|assumption].
    pose proof (proj1 (Forall_forall _ _) Hok s Hs) as [_ Hdisp].
    rewrite Hunbound in Hdisp. destruct Hdisp as [_ Hres].
    unfold step_turn. rewrite Hres. reflexivity.
  - exact (one_synthesis_pass user_input m msg tcs Hfirst Hcalls Hne Hparse).
  - apply chat_step_returns.
Qed.

End LoopFacts.

(** * The scripted world: concrete turns *)

Lemma model_failure_ends_turn_witness :
  history (after_turn "hello" offline_session) = [system_turn; user_turn "hello"]
  /\ length (history (after_turn "hello" offline_session)) =
       length (history offline_session) + 1.
Proof.
  assert (Hin : ECreate default_model [system_turn; user_turn "hello"] true
                  (Raised "Connection error.")
                ∈ turn_effects (env := stub_env) "hello" offline_session).
  { apply list_elem_of_In. vm_compute. right. left. reflexivity. }
  pose proof (model_failure_ends_turn (env := stub_env) "hello" offline_session
                _ _ _ _ Hin) as (_ & _ & Hmsgs & _ & Hfirst & _).
  split; [exact Hmsgs|exact (proj2 (Hfirst eq_refl))].
Defined.

Lemma unbound_name_not_implemented_witness :
  ToolResult "call_1" "frobnicate" "Error: Function frobnicate not implemented."
    ∈ turn_turns (env := stub_env) "frobnicate the disk" frobnicate_session
  /\ creates (turn_effects (env := stub_env) "frobnicate the disk" frobnicate_session)
     = [true; false].
Proof.
  assert (Hfirst : first_response (env := stub_env) "frobnicate the disk"
                     frobnicate_session = Returned (batch_of [frobnicate]))
    by reflexivity.
  assert (Hcalls : msg_tool_calls (batch_of [frobnicate]) = Some [frobnicate])
    by reflexivity.
  assert (Hparse : Forall (parses (env := stub_env)) [frobnicate]).
  { constructor; [|constructor]. exists (JObject []). reflexivity. }
  assert (Hin : frobnicate ∈ [frobnicate]) by (apply elem_of_cons; left; reflexivity).
  assert (Hunbound : globals !! tc_name frobnicate = None)
    by (vm_compute; reflexivity).
  pose proof (unbound_name_not_implemented (env := stub_env) "frobnicate the disk"
                frobnicate_session _ _ _ Hfirst Hcalls Hparse Hin Hunbound)
    as (_ & _ & Hturn & Hcreates & _).
  split; [exact Hturn|exact Hcreates].
Defined.

(** C3, as stated, fails: [is_directory] is absent from the catalog, yet an
    invocation naming it is not reported as not implemented.  The function
    is called and its answer becomes the tool result. *)
Lemma catalog_is_not_the_registry :
  ("is_directory" ∉ catalog_names)
  /\ turn_turns (env := stub_env) "is X a directory?" is_directory_session =
     [ user_turn "is X a directory?";
       Msg (batch_of [invocation "call_1" "is_directory" payload_path_X]);
       ToolResult "call_1" "is_directory" "False";
       Dict Assistant (Some "X is not a directory.") ]
  /\ calls (turn_effects (env := stub_env) "is X a directory?" is_directory_session)
     = [FunctionObj "is_directory"]
  /\ "False" <> not_implemented "is_directory".
Proof.
  split; [|split; [|split]].
  - intros Hin. apply list_elem_of_In in Hin. vm_compute in Hin.
    repeat (destruct Hin as [Hin|Hin]; [discriminate Hin|]). exact Hin.
  - vm_compute. reflexivity.
  - vm_compute. reflexivity.
  - intros H. vm_compute in H. discriminate H.
Qed.

(** C9, as stated, fails on one of its examples: [manage_files] is a
    top-level function of [tools.py] and is absent from the catalog, but
    it is not in the namespace of [backend.py]; an invocation naming it is
    reported as not implemented and nothing is called. *)
Lemma manage_files_is_not_bound :
  "manage_files" ∈ tools_module_functions
  /\ ("manage_files" ∉ catalog_names)
  /\ turn_turns (env := stub_env) "delete a.txt" manage_files_session =
     [ user_turn "delete a.txt";
       Msg (batch_of [invocation "call_1" "manage_files" "{}"]);
       ToolResult "call_1" "manage_files"
         "Error: Function manage_files not implemented.";
       Dict Assistant (Some "I cannot do that.") ]
  /\ calls (turn_effects (env := stub_env) "delete a.txt" manage_files_session) = [].
Proof.
  split; [|split; [|split]].
  - apply list_elem_of_In. vm_compute. do 24 right. left. reflexivity.
  - intros Hin. apply list_elem_of_In in Hin. vm_compute in Hin.
    repeat (destruct Hin as [Hin|Hin]; [discriminate Hin|]). exact Hin.
  - vm_compute. reflexivity.
  - vm_compute. reflexivity.
Qed.

(** C1 against the code.  The model asks for two listings and the payload
    of the first is not JSON.  [json.loads] raises before the Dispatcher
    block is entered, so the outer handler takes over: no tool result is
    appended for either invocation, the second invocation is never run, no
    synthesis call is made, and the turn ends on the parse error as its
    Content event.  The history is left ending with the message that
    carries the two invocations. *)
Theorem malformed_payload_aborts_turn :
  turn_turns (env := stub_env) "list X twice" malformed_first =
    [ user_turn "list X twice";
      Msg (batch_of [malformed "call_1"; list_X "call_2"]) ]
  /\ turn_events (env := stub_env) "list X twice" malformed_first =
     [ Content (Some "Error: Expecting property name enclosed in double quotes: line 1 column 2 (char 1)") ]
  /\ calls (turn_effects (env := stub_env) "list X twice" malformed_first) = []
  /\ creates (turn_effects (env := stub_env) "list X twice" malformed_first) = [true].
Proof. repeat split; vm_compute; reflexivity. Qed.

(** C2 against the code.  A batch of three invocations whose second payload
    is not JSON leaves one tool result in the history, the one of the
    first invocation, instead of three. *)
Theorem malformed_payload_drops_results :
  first_response (env := stub_env) "inspect X" malformed_second
    = Returned (batch_of [ list_X "call_1"; malformed "call_2";
                           invocation "call_3" "is_directory" payload_path_X ])
  /\ tool_results (turn_turns (env := stub_env) "inspect X" malformed_second) =
     [ ("call_1", "list_directory") ].
Proof. split; vm_compute; reflexivity. Qed.

(** C5 against the code.  The first response is a batch of one invocation
    whose payload is not JSON: the model is called once, with the catalog,
    and never again; no Assistant turn is appended, and the answer the
    model would have given to the synthesis call is never asked for. *)
Theorem malformed_payload_skips_synthesis :
  creates (turn_effects (env := stub_env) "list X" malformed_only) = [true]
  /\ turn_turns (env := stub_env) "list X" malformed_only =
     [ user_turn "list X"; Msg (batch_of [malformed "call_1"]) ]
  /\ world (after_turn "list X" malformed_only) = [Returned (answer_of "Done.")].
Proof. repeat split; vm_compute; reflexivity. Qed.

(** * More about the loop *)

Import Transcript.

Section LoopMore.
Context {env : Env}.

Implicit Types (m : Machine env) (tc : ToolCall) (s : Step).

Lemma calls_app (t1 t2 : list Effect) : calls (t1 ++ t2) = calls t1 ++ calls t2.
Proof. apply omap_app. Qed.

Lemma tool_results_app (h1 h2 : list Turn) :
  tool_results (h1 ++ h2) = tool_results h1 ++ tool_results h2.
Proof. apply omap_app. Qed.

Lemma fmap_steps_nonempty (steps : list Step) :
  steps <> [] -> step_call <$> steps <> [].
Proof. destruct steps; [congruence|discriminate]. Qed.

(** The shape of a turn whose first response carries no invocation. *)
Lemma shape_without_calls (user_input : string) m (msg : Message) :
  first_response user_input m = Returned msg ->
  msg_tool_calls msg = None \/ msg_tool_calls msg = Some [] ->
  turn_turns user_input m = [user_turn user_input; answer_turn msg]
  /\ turn_effects user_input m =
     opening user_input m (Returned msg)
     ++ [EAppend (answer_turn msg); EYield (Content (msg_content msg))].
Proof.
  intros Hfirst Hnone.
  destruct (turn_shape user_input m)
    as [e H1|msg' H1 _|msg' steps tc rest e H1 Hcalls Hok He
        |msg' steps e H1 Hcalls Hne Hok|msg' steps final H1 Hcalls Hne Hok];
    rewrite Hfirst in H1; try discriminate H1; injection H1 as <-.
  - split; reflexivity.
  - exfalso. destruct Hnone as [Hn|Hn]; rewrite Hn in Hcalls;
      [discriminate Hcalls|injection Hcalls as Hcalls].
    symmetry in Hcalls. apply app_eq_nil in Hcalls as [_ Hcalls].
    discriminate Hcalls.
  - exfalso. apply fmap_steps_nonempty in Hne.
    destruct Hnone as [Hn|Hn]; rewrite Hn in Hcalls; congruence.
  - exfalso. apply fmap_steps_nonempty in Hne.
    destruct Hnone as [Hn|Hn]; rewrite Hn in Hcalls; congruence.
Qed.

(** X1. When the first response carries no invocation ([tool_calls] is
    [None] or an empty list), the turn appends the user turn and one
    Assistant turn with the content of the response, yields that content as
    its only event, calls the model once and calls no handler. *)
Theorem answer_without_tool_calls (user_input : string) m (msg : Message) :
  first_response user_input m = Returned msg ->
  msg_tool_calls msg = None \/ msg_tool_calls msg = Some [] ->
  turn_turns user_input m =
    [Dict User (Some user_input); Dict Assistant (msg_content msg)]
  /\ turn_events user_input m = [Content (msg_content msg)]
  /\ creates (turn_effects user_input m) = [true]
  /\ calls (turn_effects user_input m) = [].
Proof.
  intros Hfirst Hnone.
  destruct (shape_without_calls user_input m msg Hfirst Hnone) as [Hturns Heff].
  unfold turn_events. rewrite Hturns, Heff. repeat split; reflexivity.
Qed.

Lemma steps_parse (steps : list Step) :
  Forall step_ok steps -> Forall parses (step_call <$> steps).
Proof.
  intros Hok. apply Forall_fmap. eapply Forall_impl; [exact Hok|].
  intros s [Hargs _]. exists (step_args s). exact Hargs.
Qed.

Lemma calls_of_blocks (steps : list Step) :
  Forall step_ok steps ->
  calls (steps ≫= step_block) = bound (step_call <$> steps).
Proof.
  induction 1 as [|s steps [_ Hs] _ IH]; [reflexivity|].
  rewrite bind_cons, calls_app, IH, fmap_cons.
  unfold bound at 2. cbn [omap list_omap]. fold (bound (step_call <$> steps)).
  unfold step_block, step_log. rewrite !calls_app.
  destruct (globals !! tc_name (step_call s)) as [f|].
  - destruct Hs as (r & -> & _). reflexivity.
  - destruct Hs as (-> & _). reflexivity.
Qed.

(** Where a list stops satisfying a property is determined by the list. *)
Lemma first_failure_unique {A} (P : A -> Prop) (l1 l2 r1 r2 : list A) (x y : A) :
  l1 ++ x :: r1 = l2 ++ y :: r2 ->
  Forall P l1 -> ~ P x -> Forall P l2 -> ~ P y ->
  l1 = l2 /\ x = y /\ r1 = r2.
Proof.
  revert l2. induction l1 as [|a l1 IH]; intros [|b l2] Heq H1 Hx H2 Hy;
    simpl in Heq; injection Heq as -> Heq.
  - auto.
  - exfalso. apply Forall_cons in H2 as [Hb _]. exact (Hx Hb).
  - exfalso. apply Forall_cons in H1 as [Ha _]. exact (Hy Ha).
  - apply Forall_cons in H1 as [_ H1]. apply Forall_cons in H2 as [_ H2].
    destruct (IH l2 Heq H1 Hx H2 Hy) as (-> & -> & ->). auto.
Qed.

Lemma rejected_not_parsed tc (e : string) :
  json_loads (tc_arguments tc) = Raised e -> ~ parses tc.
Proof. intros He [args Hargs]. congruence. Qed.

(** A call recorded among the blocks of a batch is the call of one of its
    steps. *)
Lemma call_in_blocks (steps : list Step) (f : PyObject) (args : Json)
    (r : PyResult string) :
  Forall step_ok steps ->
  ECall f args r ∈ steps ≫= step_block ->
  exists (steps1 : list Step) s (steps2 : list Step),
    steps = steps1 ++ s :: steps2
    /\ json_loads (tc_arguments (step_call s)) = Returned args
    /\ globals !! tc_name (step_call s) = Some f
    /\ step_block s =
         [ EYield (running (tc_name (step_call s)));
           ECall f args r;
           EAppend (ToolResult (tc_id (step_call s)) (tc_name (step_call s))
                      (result_text r));
           EYield (completed (tc_name (step_call s))) ].
Proof.
  intros Hok Hin. apply list_elem_of_bind in Hin as (s & Hin & Hs).
  pose proof (proj1 (Forall_forall _ _) Hok s Hs) as [Hargs Hdisp].
  apply list_elem_of_split in Hs as (steps1 & steps2 & ->).
  exists steps1, s, steps2. split; [reflexivity|].
  unfold step_block, step_log, step_turn in *.
  destruct (globals !! tc_name (step_call s)) as [g|].
  - destruct Hdisp as (r0 & Hd & Hres). rewrite Hd in *. rewrite Hres.
    rewrite !elem_of_app, !elem_of_cons, !elem_of_nil in Hin.
    destruct Hin as [[Hin|[]]|[[Hin|[]]|[Hin|[Hin|[]]]]]; try discriminate Hin.
    injection Hin as -> Ha ->. rewrite <- Ha in Hargs |- *.
    repeat split; assumption.
  - destruct Hdisp as (Hd & _). rewrite Hd in Hin.
    rewrite !elem_of_app, !elem_of_cons, !elem_of_nil in Hin.
    destruct Hin as [[Hin|[]]|[[]|[Hin|[Hin|[]]]]]; discriminate Hin.
Qed.

(** C4. Whenever, in a turn of [chat_step], the call of a handler raises
    [e], the exception stops at the Dispatcher: [chat_step] returns; the
    invocation is one of those the model asked for, with a payload that
    parsed and a bound name; the call is followed at once by the tool result
    "Execution Error: e" under the id and the name of the invocation, which
    is in the history after the turn, and by the "Completed" status; and the
    turn continues: with the next invocation of the batch when there is one
    (its "Running" status, or the error of the outer [except] if its payload
    does not parse), and after the last invocation with the model call
    without the catalog, whose messages hold the "Execution Error" result.
    When all the payloads of the batch parse, every invocation gets its
    result and the model is called twice.  In any state the Dispatcher
    block turns a raising call into that text and raises nothing. *)
Theorem handler_failure_becomes_text (user_input : string) m
    (f : PyObject) (args : Json) (e : string) :
  ECall f args (Raised e) ∈ turn_effects user_input m ->
  fst (chat_step user_input m) = Returned tt
  /\ (exists (before after : list ToolCall) tc (pre post : list Effect),
        let result :=
          ToolResult (tc_id tc) (tc_name tc) ("Execution Error: " +:+ e) in
        asked (first_response user_input m) = before ++ tc :: after
        /\ json_loads (tc_arguments tc) = Returned args
        /\ globals !! tc_name tc = Some f
        /\ turn_effects user_input m =
             pre ++ [ EYield (running (tc_name tc));
                      ECall f args (Raised e);
                      EAppend result;
                      EYield (completed (tc_name tc)) ] ++ post
        /\ result ∈ turn_turns user_input m
        /\ match after with
           | [] =>
               exists (msgs : list Turn) (r : PyResult Message)
                      (rest : list Effect),
                 post = ECreate (model m) msgs false r :: rest
                 /\ result ∈ msgs
           | next :: _ =>
               match json_loads (tc_arguments next) with
               | Returned _ =>
                   exists rest : list Effect,
                     post = EYield (running (tc_name next)) :: rest
               | Raised e' => post = [EYield (Content (Some ("Error: " +:+ e')))]
               end
           end)
  /\ (Forall parses (asked (first_response user_input m)) ->
      tool_results (turn_turns user_input m) =
        id_and_name <$> asked (first_response user_input m)
      /\ creates (turn_effects user_input m) = [true; false])
  /\ (forall (func_name : string) m' (w' : World),
        globals !! func_name = Some f ->
        py_call f args (world m') = (Raised e, w') ->
        dispatcher func_name args m' =
          (Returned ("Execution Error: " +:+ e),
           {| history := history m'; model := model m'; world := w';
              trace := trace m' ++ [ECall f args (Raised e)] |})).
Proof.
  intros Hin.
  assert (Hsplit : forall (msg : Message) (steps : list Step),
            Forall step_ok steps ->
            ECall f args (Raised e) ∈ steps ≫= step_block ->
            exists (steps1 : list Step) s (steps2 : list Step),
              steps = steps1 ++ s :: steps2
              /\ json_loads (tc_arguments (step_call s)) = Returned args
              /\ globals !! tc_name (step_call s) = Some f
              /\ batch_effects user_input m msg steps =
                   (opening user_input m (Returned msg) ++ [EAppend (Msg msg)]
                    ++ (steps1 ≫= step_block))
                   ++ [ EYield (running (tc_name (step_call s)));
                        ECall f args (Raised e);
                        EAppend (ToolResult (tc_id (step_call s))
                                   (tc_name (step_call s))
                                   ("Execution Error: " +:+ e));
                        EYield (completed (tc_name (step_call s))) ]
                   ++ (steps2 ≫= step_block)
              /\ ToolResult (tc_id (step_call s)) (tc_name (step_call s))
                   ("Execution Error: " +:+ e)
                   ∈ batch_turns user_input msg steps).
  { intros msg steps Hok Hcall.
    destruct (call_in_blocks steps f args (Raised e) Hok Hcall)
      as (steps1 & s & steps2 & -> & Hargs & Hf & Hblock).
    exists steps1, s, steps2. repeat split; try assumption.
    - unfold batch_effects. rewrite bind_app, bind_cons, Hblock.
      rewrite <- !app_assoc. reflexivity.
    - unfold batch_turns. apply elem_of_app. right.
      apply list_elem_of_fmap. exists s. split.
      + assert (Hturn : EAppend (step_turn s) ∈ step_block s).
        { unfold step_block. rewrite !elem_of_app, !elem_of_cons. auto. }
        rewrite Hblock in Hturn.
        rewrite !elem_of_cons, elem_of_nil in Hturn.
        destruct Hturn as [H|[H|[H|[H|[]]]]]; try discriminate H.
        injection H as H. unfold step_turn. rewrite H. reflexivity.
      + apply elem_of_app. right. left. }
  assert (Hnext : forall (steps2 : list Step) (tail : list ToolCall)
                         (ending : list Effect),
            Forall step_ok steps2 ->
            match (step_call <$> steps2) ++ tail with
            | [] => True
            | next :: _ =>
                steps2 = [] -> exists e', json_loads (tc_arguments next) = Raised e'
                                          /\ ending = [failed e']
            end ->
            match (step_call <$> steps2) ++ tail with
            | [] => True
            | next :: _ =>
                match json_loads (tc_arguments next) with
                | Returned _ =>
                    exists rest : list Effect,
                      (steps2 ≫= step_block) ++ ending =
                      EYield (running (tc_name next)) :: rest
                | Raised e' =>
                    (steps2 ≫= step_block) ++ ending =
                    [EYield (Content (Some ("Error: " +:+ e')))]
                end
            end).
  { intros [|s2 steps2] tail ending Hok Htail.
    - cbn [fmap list_fmap app] in *. destruct tail as [|next tail]; [exact I|].
      destruct (Htail eq_refl) as (e' & -> & ->). reflexivity.
    - cbn [fmap list_fmap app]. apply Forall_cons in Hok as [[Hargs _] _].
      rewrite Hargs. rewrite bind_cons. unfold step_block at 1.
      eexists. rewrite <- !app_assoc. reflexivity. }
  split; [apply chat_step_returns|]. split; [|split].
  - destruct (turn_shape user_input m)
      as [e0 H1|msg H1 Hnone|msg steps tc0 rest0 e0 H1 Hcalls Hok He
          |msg steps e0 H1 Hcalls Hne Hok|msg steps final H1 Hcalls Hne Hok].
    + exfalso. unfold opening, failed in Hin.
      rewrite !elem_of_app, !elem_of_cons, !elem_of_nil in Hin.
      destruct Hin as [[Hin|[Hin|[]]]|[Hin|[]]]; discriminate Hin.
    + exfalso. unfold opening in Hin.
      rewrite !elem_of_app, !elem_of_cons, !elem_of_nil in Hin.
      destruct Hin as [[Hin|[Hin|[]]]|[Hin|[Hin|[]]]]; discriminate Hin.
    + assert (Hcall : ECall f args (Raised e) ∈ steps ≫= step_block).
      { unfold batch_effects, opening, failed in Hin.
        rewrite !elem_of_app, !elem_of_cons, !elem_of_nil in Hin.
        destruct Hin as [[[Hin|[Hin|[]]]|[[Hin|[]]|Hin]]|[Hin|[]]];
          try discriminate Hin. exact Hin. }
      destruct (Hsplit msg steps Hok Hcall)
        as (steps1 & s & steps2 & Hsteps & Hargs & Hf & Heff & Hturn).
      subst steps.
      exists (step_call <$> steps1), ((step_call <$> steps2) ++ tc0 :: rest0),
             (step_call s),
             (opening user_input m (Returned msg) ++ [EAppend (Msg msg)]
              ++ (steps1 ≫= step_block)),
             ((steps2 ≫= step_block) ++ [failed e0]).
      cbv zeta. rewrite Heff, H1. unfold asked. rewrite Hcalls.
      cbn [default from_option id]. rewrite fmap_app, fmap_cons.
      rewrite <- !app_assoc. cbn [app].
      split; [reflexivity|]. split; [exact Hargs|]. split; [exact Hf|].
      split; [reflexivity|]. split; [exact Hturn|].
      apply Forall_app in Hok as [_ Hok].
      apply Forall_cons in Hok as [_ Hok].
      pose proof (Hnext steps2 (tc0 :: rest0) [failed e0] Hok) as Hn.
      destruct steps2 as [|s2 steps2].
      * cbn [fmap list_fmap app] in *. rewrite He in *.
        apply Hn. intros _. exists e0. auto.
      * cbn [fmap list_fmap app] in *. apply Hn. intros Hnil. discriminate Hnil.
    + assert (Hcall : ECall f args (Raised e) ∈ steps ≫= step_block).
      { unfold batch_effects, opening, synthesis, failed in Hin.
        rewrite !elem_of_app, !elem_of_cons, !elem_of_nil in Hin.
        destruct Hin as [[[Hin|[Hin|[]]]|[[Hin|[]]|Hin]]|[Hin|[Hin|[]]]];
          try discriminate Hin. exact Hin. }
      destruct (Hsplit msg steps Hok Hcall)
        as (steps1 & s & steps2 & Hsteps & Hargs & Hf & Heff & Hturn).
      subst steps.
      exists (step_call <$> steps1), (step_call <$> steps2), (step_call s),
             (opening user_input m (Returned msg) ++ [EAppend (Msg msg)]
              ++ (steps1 ≫= step_block)),
             ((steps2 ≫= step_block)
              ++ [synthesis user_input m msg (steps1 ++ s :: steps2) (Raised e0);
                  failed e0]).
      cbv zeta. rewrite Heff, H1. unfold asked. rewrite Hcalls.
      cbn [default from_option id].
      rewrite fmap_app, fmap_cons. rewrite <- !app_assoc. cbn [app].
      split; [reflexivity|]. split; [exact Hargs|]. split; [exact Hf|].
      split; [reflexivity|]. split; [exact Hturn|].
      pose proof Hok as Hok2.
      apply Forall_app in Hok2 as [_ Hok2].
      apply Forall_cons in Hok2 as [_ Hok2].
      destruct steps2 as [|s2 steps2].
      * cbn [fmap list_fmap]. unfold synthesis. eexists _, _, _.
        split; [reflexivity|]. apply elem_of_app. right. exact Hturn.
      * epose proof (Hnext (s2 :: steps2) [] _ Hok2) as Hn.
        rewrite app_nil_r in Hn. cbn [fmap list_fmap] in *.
        apply Hn. intros Hnil. discriminate Hnil.
    + assert (Hcall : ECall f args (Raised e) ∈ steps ≫= step_block).
      { unfold batch_effects, opening, synthesis in Hin.
        rewrite !elem_of_app, !elem_of_cons, !elem_of_nil in Hin.
        destruct Hin as [[[Hin|[Hin|[]]]|[[Hin|[]]|Hin]]|[Hin|[Hin|[Hin|[]]]]];
          try discriminate Hin. exact Hin. }
      destruct (Hsplit msg steps Hok Hcall)
        as (steps1 & s & steps2 & Hsteps & Hargs & Hf & Heff & Hturn).
      subst steps.
      exists (step_call <$> steps1), (step_call <$> steps2), (step_call s),
             (opening user_input m (Returned msg) ++ [EAppend (Msg msg)]
              ++ (steps1 ≫= step_block)),
             ((steps2 ≫= step_block)
              ++ [synthesis user_input m msg (steps1 ++ s :: steps2)
                    (Returned final);
                  EAppend (answer_turn final);
                  EYield (Content (msg_content final))]).
      cbv zeta. rewrite Heff, H1. unfold asked. rewrite Hcalls.
      cbn [default from_option id].
      rewrite fmap_app, fmap_cons. rewrite <- !app_assoc. cbn [app].
      split; [reflexivity|]. split; [exact Hargs|]. split; [exact Hf|].
      split; [reflexivity|].
      split; [apply elem_of_app; left; exact Hturn|].
      pose proof Hok as Hok2.
      apply Forall_app in Hok2 as [_ Hok2].
      apply Forall_cons in Hok2 as [_ Hok2].
      destruct steps2 as [|s2 steps2].
      * cbn [fmap list_fmap]. unfold synthesis. eexists _, _, _.
        split; [reflexivity|]. apply elem_of_app. right. exact Hturn.
      * epose proof (Hnext (s2 :: steps2) [] _ Hok2) as Hn.
        rewrite app_nil_r in Hn. cbn [fmap list_fmap] in *.
        apply Hn. intros Hnil. discriminate Hnil.
  - intros Hparse.
    destruct (first_response user_input m) as [msg|e0] eqn:Hfirst.
    + unfold asked in *. destruct (msg_tool_calls msg) as [tcs|] eqn:Hcalls.
      * cbn [default from_option id] in *.
        destruct tcs as [|tc0 tcs].
        -- exfalso.
           destruct (shape_without_calls user_input m msg Hfirst (or_intror Hcalls))
             as [_ Heff]. rewrite Heff in Hin. unfold opening in Hin.
           rewrite !elem_of_app, !elem_of_cons, !elem_of_nil in Hin.
           destruct Hin as [[Hin|[Hin|[]]]|[Hin|[Hin|[]]]]; discriminate Hin.
        -- assert (Hne : tc0 :: tcs <> []) by discriminate.
           split.
           ++ exact (batch_results_in_order user_input m msg _
                       Hfirst Hcalls Hne Hparse).
           ++ exact (one_synthesis_pass user_input m msg _
                       Hfirst Hcalls Hne Hparse).
      * exfalso.
        destruct (shape_without_calls user_input m msg Hfirst (or_introl Hcalls))
          as [_ Heff]. rewrite Heff in Hin. unfold opening in Hin.
        rewrite !elem_of_app, !elem_of_cons, !elem_of_nil in Hin.
        destruct Hin as [[Hin|[Hin|[]]]|[Hin|[Hin|[]]]]; discriminate Hin.
    + exfalso.
      destruct (turn_shape user_input m)
        as [e1 H1|msg H1 Hnone|msg steps tc0 rest0 e1 H1 Hcalls Hok He
            |msg steps e1 H1 Hcalls Hne Hok|msg steps final H1 Hcalls Hne Hok];
        try congruence.
      unfold opening, failed in Hin.
      rewrite !elem_of_app, !elem_of_cons, !elem_of_nil in Hin.
      destruct Hin as [[Hin|[Hin|[]]]|[Hin|[]]]; discriminate Hin.
  - intros func_name m' w' Hf Hcall.
    pose proof (dispatcher_eq (invocation EmptyString func_name EmptyString)
                  args m') as Heq.
    unfold run_step in Heq. cbn [tc_name invocation] in Heq.
    rewrite Hf, Hcall in Heq. exact Heq.
Qed.

(** X2. In every turn the tool results appended are those of a prefix of
    the invocations of the first response, in their order, each under the
    id and the name of its invocation; there is none when the first call
    failed or brought an answer. *)
Theorem tool_results_follow_the_batch (user_input : string) m :
  tool_results (turn_turns user_input m)
    `prefix_of` (id_and_name <$> asked (first_response user_input m)).
Proof.
  destruct (turn_shape user_input m)
    as [e H1|msg H1 Hnone|msg steps tc rest e H1 Hcalls Hok He
        |msg steps e H1 Hcalls Hne Hok|msg steps final H1 Hcalls Hne Hok];
    rewrite H1; unfold asked, batch_turns;
    rewrite ?tool_results_app, ?tool_results_of_steps.
  - apply prefix_nil.
  - apply prefix_nil.
  - rewrite Hcalls. cbn [default from_option id tool_results omap list_omap user_turn app].
    rewrite fmap_app, <- list_fmap_compose. apply prefix_app_r. reflexivity.
  - rewrite Hcalls. cbn [default from_option id tool_results omap list_omap user_turn app].
    rewrite <- list_fmap_compose. reflexivity.
  - rewrite Hcalls.
    cbn [default from_option id tool_results omap list_omap user_turn answer_turn app].
    rewrite <- list_fmap_compose, app_nil_r. reflexivity.
Qed.

(** X3. Every turn appends the user turn first; then nothing, or the
    message of the model followed by tool results only; then at most one
    Assistant turn, which is the last.  No System turn is ever appended. *)
Theorem turn_has_one_answer_at_most (user_input : string) m :
  exists (body ending : list Turn),
    turn_turns user_input m = Dict User (Some user_input) :: body ++ ending
    /\ Forall (fun t => is_batch_turn t = true) body
    /\ (body = []
        \/ exists msg steps,
             first_response user_input m = Returned msg
             /\ body = Msg msg :: (step_turn <$> steps))
    /\ (ending = [] \/ exists content, ending = [Dict Assistant content]).
Proof.
  assert (Hresults : forall steps : list Step,
            Forall (fun t => is_batch_turn t = true) (step_turn <$> steps)).
  { intros steps. apply Forall_fmap, Forall_forall. reflexivity. }
  destruct (turn_shape user_input m)
    as [e H1|msg H1 Hnone|msg steps tc rest e H1 Hcalls Hok He
        |msg steps e H1 Hcalls Hne Hok|msg steps final H1 Hcalls Hne Hok].
  - exists [], []. repeat split; auto.
  - exists [], [answer_turn msg]. repeat split; eauto.
  - exists (Msg msg :: (step_turn <$> steps)), []. rewrite app_nil_r.
    repeat split; eauto.
  - exists (Msg msg :: (step_turn <$> steps)), []. rewrite app_nil_r.
    repeat split; eauto.
  - exists (Msg msg :: (step_turn <$> steps)), [answer_turn final].
    repeat split; eauto.
Qed.

(** The model calls of a turn: the first, and the one after a batch. *)
Lemma create_cases (user_input : string) m
    (md : string) (msgs : list Turn) (tools : bool) (r : PyResult Message) :
  ECreate md msgs tools r ∈ turn_effects user_input m ->
  md = model m
  /\ ((tools = true /\ msgs = history m ++ [user_turn user_input])
      \/ (tools = false
          /\ exists msg steps,
               first_response user_input m = Returned msg
               /\ msg_tool_calls msg = Some (step_call <$> steps)
               /\ msgs = history m ++ batch_turns user_input msg steps
               /\ exists ending,
                    turn_turns user_input m =
                    batch_turns user_input msg steps ++ ending)).
Proof.
  intros Hin.
  destruct (turn_shape user_input m)
    as [e0 H1|msg H1 Hnone|msg steps tc rest e0 H1 Hcalls Hok He
        |msg steps e0 H1 Hcalls Hne Hok|msg steps final H1 Hcalls Hne Hok];
    unfold batch_effects, opening, synthesis, failed in Hin;
    rewrite ?elem_of_app, ?elem_of_cons, ?elem_of_nil in Hin.
  - destruct Hin as [[Hin|[Hin|[]]]|[Hin|[]]]; try discriminate Hin.
    injection Hin as -> -> -> ->. auto.
  - destruct Hin as [[Hin|[Hin|[]]]|[Hin|[Hin|[]]]]; try discriminate Hin.
    injection Hin as -> -> -> ->. auto.
  - destruct Hin as [[[Hin|[Hin|[]]]|[[Hin|[]]|Hin]]|[Hin|[]]];
      try discriminate Hin.
    + injection Hin as -> -> -> ->. auto.
    + exfalso. exact (no_create_in_blocks _ _ _ _ _ Hin).
  - destruct Hin as [[[Hin|[Hin|[]]]|[[Hin|[]]|Hin]]|[Hin|[Hin|[]]]];
      try discriminate Hin.
    + injection Hin as -> -> -> ->. auto.
    + exfalso. exact (no_create_in_blocks _ _ _ _ _ Hin).
    + injection Hin as -> -> -> ->. split; [reflexivity|]. right.
      split; [reflexivity|]. exists msg, steps. repeat split; try assumption.
      exists []. rewrite app_nil_r. reflexivity.
  - destruct Hin as [[[Hin|[Hin|[]]]|[[Hin|[]]|Hin]]|[Hin|[Hin|[Hin|[]]]]];
      try discriminate Hin.
    + injection Hin as -> -> -> ->. auto.
    + exfalso. exact (no_create_in_blocks _ _ _ _ _ Hin).
    + injection Hin as -> -> -> ->. split; [reflexivity|]. right.
      split; [reflexivity|]. exists msg, steps. repeat split; try assumption.
      exists [answer_turn final]. reflexivity.
Qed.

(** X4. Every model call of a turn is made with the model of the session
    and with the history as it stands at that moment: the first call sees
    the old history and the new user turn; the call after a batch sees, in
    addition, the message that carries the invocations and one tool result
    per invocation of the batch.  What a call was given is a prefix of the
    history the turn leaves. *)
Theorem model_calls_see_the_history (user_input : string) m
    (md : string) (msgs : list Turn) (tools : bool) (r : PyResult Message) :
  ECreate md msgs tools r ∈ turn_effects user_input m ->
  md = model m
  /\ (tools = true -> msgs = history m ++ [Dict User (Some user_input)])
  /\ (tools = false ->
      exists msg steps,
        first_response user_input m = Returned msg
        /\ msg_tool_calls msg = Some (step_call <$> steps)
        /\ msgs = history m ++ Dict User (Some user_input) :: Msg msg
                              :: (step_turn <$> steps))
  /\ msgs `prefix_of` history (snd (chat_step user_input m)).
Proof.
  intros Hin. rewrite chat_step_history.
  destruct (create_cases user_input m md msgs tools r Hin)
    as (Hmd & [(-> & ->)|(-> & msg & steps & H1 & Hcalls & -> & ending & Hturns)]).
  - split; [assumption|]. split; [reflexivity|]. split; [discriminate|].
    destruct (turn_turns_start user_input m) as [added ->].
    apply prefix_app, prefix_cons, prefix_nil.
  - split; [assumption|]. split; [discriminate|]. split.
    + intros _. exists msg, steps. auto.
    + rewrite Hturns. apply prefix_app, prefix_app_r. reflexivity.
Qed.

(** X5. When every payload of the first response parses, the handlers
    called in the turn are the objects bound to the names of its
    invocations, one call per invocation and in the order of the batch;
    an invocation whose name is unbound causes no call. *)
Theorem bound_names_are_called_in_order (user_input : string) m :
  Forall parses (asked (first_response user_input m)) ->
  calls (turn_effects user_input m) = bound (asked (first_response user_input m)).
Proof.
  destruct (turn_shape user_input m)
    as [e H1|msg H1 Hnone|msg steps tc rest e H1 Hcalls Hok He
        |msg steps e H1 Hcalls Hne Hok|msg steps final H1 Hcalls Hne Hok];
    rewrite H1; unfold asked; intros Hparse.
  - reflexivity.
  - destruct Hnone as [->| ->]; reflexivity.
  - exfalso. rewrite Hcalls in Hparse. cbn [default from_option id] in Hparse.
    apply Forall_app in Hparse as [_ Hparse].
    apply Forall_cons in Hparse as [Hparse _].
    exact (rejected_not_parsed tc e He Hparse).
  - rewrite Hcalls. cbn [default from_option id].
    unfold batch_effects. rewrite !calls_app, (calls_of_blocks steps Hok).
    cbn. rewrite app_nil_r. reflexivity.
  - rewrite Hcalls. cbn [default from_option id].
    unfold batch_effects. rewrite !calls_app, (calls_of_blocks steps Hok).
    cbn. rewrite app_nil_r. reflexivity.
Qed.

(** X6. When [json.loads] rejects the payload of an invocation and accepts
    those before it, the turn stops at that invocation: the tool results
    appended are those of the invocations before it, the events are their
    status pairs followed by the Content event "Error: " and the parse
    error, the handlers called are those bound to the names before it, and
    the model is not called again. *)
Theorem payload_rejection_stops_the_turn (user_input : string) m
    (msg : Message) (done rest : list ToolCall) tc (e : string) :
  first_response user_input m = Returned msg ->
  msg_tool_calls msg = Some (done ++ tc :: rest) ->
  Forall parses done ->
  json_loads (tc_arguments tc) = Raised e ->
  tool_results (turn_turns user_input m) = id_and_name <$> done
  /\ length (turn_turns user_input m) = 2 + length done
  /\ turn_events user_input m =
       ((tc_name <$> done) ≫= status_pair) ++ [Content (Some ("Error: " +:+ e))]
  /\ calls (turn_effects user_input m) = bound done
  /\ creates (turn_effects user_input m) = [true].
Proof.
  intros Hfirst Hcalls Hdone He.
  pose proof (rejected_not_parsed tc e He) as Hbad.
  assert (Hshape : exists steps,
            step_call <$> steps = done /\ Forall step_ok steps
            /\ turn_turns user_input m = batch_turns user_input msg steps
            /\ turn_effects user_input m =
                 batch_effects user_input m msg steps ++ [failed e]).
  { destruct (turn_shape user_input m)
      as [e0 H1|msg' H1 Hnone|msg' steps tc' rest' e0 H1 Hcalls' Hok He'
          |msg' steps e0 H1 Hcalls' Hne Hok|msg' steps final H1 Hcalls' Hne Hok];
      rewrite Hfirst in H1; try discriminate H1; injection H1 as <-;
      try rewrite Hcalls in Hcalls'.
    - exfalso. destruct Hnone as [Hn|Hn]; rewrite Hcalls in Hn;
        [discriminate Hn|].
      injection Hn as Hn. apply app_eq_nil in Hn as [_ Hn]. discriminate Hn.
    - injection Hcalls' as Heq.
      destruct (first_failure_unique parses _ _ _ _ _ _ Heq Hdone Hbad
                  (steps_parse steps Hok) (rejected_not_parsed tc' e0 He'))
        as (Hd & <- & _).
      assert (e0 = e) as -> by congruence.
      exists steps. auto.
    - exfalso. injection Hcalls' as Heq.
      pose proof (steps_parse steps Hok) as Hall. rewrite <- Heq in Hall.
      apply Forall_app in Hall as [_ Hall].
      apply Forall_cons in Hall as [Hall _]. exact (Hbad Hall).
    - exfalso. injection Hcalls' as Heq.
      pose proof (steps_parse steps Hok) as Hall. rewrite <- Heq in Hall.
      apply Forall_app in Hall as [_ Hall].
      apply Forall_cons in Hall as [Hall _]. exact (Hbad Hall). }
  destruct Hshape as (steps & <- & Hok & Hturns & Heff).
  unfold turn_events. rewrite Hturns, Heff. unfold batch_turns, batch_effects.
  split; [|split; [|split; [|split]]].
  - rewrite tool_results_app, tool_results_of_steps, <- list_fmap_compose.
    reflexivity.
  - rewrite length_app, !length_fmap. reflexivity.
  - rewrite !events_of_app, events_of_blocks, <- list_fmap_compose.
    reflexivity.
  - rewrite !calls_app, (calls_of_blocks steps Hok). cbn.
    rewrite app_nil_r. reflexivity.
  - rewrite !creates_app, creates_blocks. reflexivity.
Qed.

(** X7. [set_model] changes the model and nothing else: the history, the
    trace and the world are as before, and every model call of the next
    turn (there is at least one) is made with the new model. *)
Theorem set_model_takes_effect (new_model user_input : string) m :
  fst (set_model new_model m) = Returned tt
  /\ history (snd (set_model new_model m)) = history m
  /\ trace (snd (set_model new_model m)) = trace m
  /\ world (snd (set_model new_model m)) = world m
  /\ creates (turn_effects user_input (snd (set_model new_model m))) <> []
  /\ (forall md msgs tools r,
        ECreate md msgs tools r
          ∈ turn_effects user_input (snd (set_model new_model m)) ->
        md = new_model)
  /\ model (snd (chat_step user_input (snd (set_model new_model m)))) = new_model.
Proof.
  repeat split.
  - destruct (catalog_offered_once user_input (snd (set_model new_model m)))
      as [-> | ->]; discriminate.
  - intros md msgs tools r Hin.
    destruct (create_cases _ _ _ _ _ _ Hin) as [-> _]. reflexivity.
  - rewrite chat_step_model. reflexivity.
Qed.

End LoopMore.

(** In the scripted world the handler of the first of two invocations
    raises: its result is the "Execution Error" text, the second invocation
    is executed, and the model is asked for its answer. *)
Lemma handler_failure_becomes_text_witness :
  turn_turns (env := stub_env) "list X" missing_argument_session =
    [ user_turn "list X";
      Msg (batch_of [missing_argument; list_X "call_2"]);
      ToolResult "call_1" "list_directory"
        "Execution Error: list_directory() missing 1 required positional argument: 'path'";
      ToolResult "call_2" "list_directory" "Error: Path X not found.";
      answer_turn (answer_of "Done.") ]
  /\ tool_results (turn_turns (env := stub_env) "list X" missing_argument_session) =
       [("call_1", "list_directory"); ("call_2", "list_directory")]
  /\ creates (turn_effects (env := stub_env) "list X" missing_argument_session)
     = [true; false].
Proof.
  assert (Hin : ECall (FunctionObj "list_directory") (JObject [])
                  (Raised "list_directory() missing 1 required positional argument: 'path'")
                ∈ turn_effects (env := stub_env) "list X" missing_argument_session).
  { apply list_elem_of_In. vm_compute. do 4 right. left. reflexivity. }
  assert (Hparse : Forall (parses (env := stub_env))
                     (Transcript.asked
                        (first_response (env := stub_env) "list X"
                           missing_argument_session))).
  { constructor; [|constructor; [|constructor]]; eexists; reflexivity. }
  pose proof (handler_failure_becomes_text (env := stub_env) "list X"
                missing_argument_session _ _ _ Hin) as (_ & _ & Hall & _).
  split; [vm_compute; reflexivity|]. exact (Hall Hparse).
Defined.

Lemma answer_without_tool_calls_witness :
  turn_turns (env := stub_env) "hello" (session_with [Returned (batch_of [])]) =
    [Dict User (Some "hello"); Dict Assistant None]
  /\ turn_events (env := stub_env) "hello" (session_with [Returned (batch_of [])]) =
     [Content None].
Proof.
  pose proof (answer_without_tool_calls (env := stub_env) "hello"
                (session_with [Returned (batch_of [])]) (batch_of [])
                eq_refl (or_intror eq_refl)) as (Hturns & Hevents & _).
  split; [exact Hturns|exact Hevents].
Defined.

Lemma model_calls_see_the_history_witness :
  ECreate default_model
    [ system_turn; Dict User (Some "frobnicate the disk");
      Msg (batch_of [frobnicate]);
      ToolResult "call_1" "frobnicate" "Error: Function frobnicate not implemented." ]
    false (Returned (answer_of "I cannot do that."))
  ∈ turn_effects (env := stub_env) "frobnicate the disk" frobnicate_session
  /\ default_model = model frobnicate_session.
Proof.
  assert (Hin : ECreate default_model
    [ system_turn; Dict User (Some "frobnicate the disk");
      Msg (batch_of [frobnicate]);
      ToolResult "call_1" "frobnicate" "Error: Function frobnicate not implemented." ]
    false (Returned (answer_of "I cannot do that."))
    ∈ turn_effects (env := stub_env) "frobnicate the disk" frobnicate_session).
  { apply list_elem_of_In. vm_compute. do 6 right. left. reflexivity. }
  split; [exact Hin|].
  exact (proj1 (model_calls_see_the_history (env := stub_env) _ _ _ _ _ _ Hin)).
Defined.

Lemma bound_names_are_called_in_order_witness :
  calls (turn_effects (env := stub_env) "is X a directory?" is_directory_session)
  = [FunctionObj "is_directory"].
Proof.
  assert (Hparse : Forall (parses (env := stub_env))
                     (asked (first_response (env := stub_env)
                               "is X a directory?" is_directory_session))).
  { constructor; [|constructor].
    exists (JObject [("path", JString "X")]). vm_compute. reflexivity. }
  rewrite (bound_names_are_called_in_order (env := stub_env) _ _ Hparse).
  vm_compute. reflexivity.
Defined.

Lemma payload_rejection_stops_the_turn_witness :
  tool_results (turn_turns (env := stub_env) "inspect X" malformed_second) =
    [("call_1", "list_directory")]
  /\ creates (turn_effects (env := stub_env) "inspect X" malformed_second) = [true].
Proof.
  assert (Hdone : Forall (parses (env := stub_env)) [list_X "call_1"]).
  { constructor; [|constructor].
    exists (JObject [("path", JString "X")]). vm_compute. reflexivity. }
  pose proof (payload_rejection_stops_the_turn (env := stub_env) "inspect X"
                malformed_second
                (batch_of [ list_X "call_1"; malformed "call_2";
                            invocation "call_3" "is_directory" payload_path_X ])
                [list_X "call_1"]
                [invocation "call_3" "is_directory" payload_path_X]
                (malformed "call_2")
                "Expecting property name enclosed in double quotes: line 1 column 2 (char 1)"
                eq_refl eq_refl Hdone eq_refl)
    as (Hresults & _ & _ & _ & Hcreates).
  split; [exact Hresults|exact Hcreates].
Defined.

(** * tools.py: the remaining tools *)

Import Files.

Lemma append_empty (a : string) : a +:+ EmptyString = a.
Proof.
  induction a as [|c a IH]; [reflexivity|].
  change (String c (a +:+ EmptyString) = String c a). rewrite IH. reflexivity.
Qed.

Lemma py_len_append (a b : string) : py_len (a +:+ b) = py_len a + py_len b.
Proof.
  induction a as [|c a IH]; [reflexivity|].
  change (py_len (String c (a +:+ b)) = py_len (String c a) + py_len b).
  cbn [py_len]. rewrite IH. lia.
Qed.

Lemma py_len_take (n : nat) (s : string) :
  py_len (py_take n s) = Nat.min n (py_len s).
Proof.
  revert n. induction s as [|c s IH]; intros n.
  - cbn [py_take py_len]. lia.
  - cbn [py_take py_len]. destruct (continues c) eqn:Hc.
    + cbn [py_len]. rewrite Hc, IH. lia.
    + destruct n as [|n]; [reflexivity|].
      cbn [py_len]. rewrite Hc, IH. lia.
Qed.

Lemma py_take_all (n : nat) (s : string) : py_len s <= n -> py_take n s = s.
Proof.
  revert n. induction s as [|c s IH]; intros n Hlen; [reflexivity|].
  cbn [py_take py_len] in *. destruct (continues c).
  - rewrite IH; [reflexivity|lia].
  - destruct n as [|n]; [lia|]. rewrite IH; [reflexivity|lia].
Qed.

Lemma bind_returned {S A B} (c : Eff S A) (k : A -> Eff S B) (s s' : S) (a : A) :
  c s = (Returned a, s') -> bind c k s = k a s'.
Proof. intros H. unfold bind. rewrite H. reflexivity. Qed.

Lemma bind_raised {S A B} (c : Eff S A) (k : A -> Eff S B) (s s' : S) (e : string) :
  c s = (Raised e, s') -> bind c k s = (Raised e, s').
Proof. intros H. unfold bind. rewrite H. reflexivity. Qed.

Lemma try_except_text {S} (c : Eff S string) (text : string -> string) (s : S) :
  exists out s', try_except c (fun e => ret (text e)) s = (Returned out, s').
Proof. unfold try_except, ret. destruct (c s) as [[out|e] s']; eauto. Qed.

Section FilesFacts.
Context {os : OS} {disk : Disk}.

Lemma resolve_run (path : string) (fs : FS) :
  _resolve_path path fs = (fst (_resolve_path path fs), fs).
Proof.
  pose proof (_resolve_path_reads_only path fs) as H.
  destruct (_resolve_path path fs) as [r fs']. simpl in H. subst. reflexivity.
Qed.

(** X10. The tools whose body is one [try] answer in text whatever
    happens: [create_file], [write_to_file], [read_file], [list_directory],
    [is_directory], [make_directory], [delete_file], [find_duplicates] and
    [find_large_files] never raise, so the Dispatcher never has to turn a
    failure of their bodies into "Execution Error". *)
Theorem file_tools_answer_in_text (fs : FS) (path content : string)
    (safe : bool) (threshold : Z) :
  (exists out fs', create_file path content fs = (Returned out, fs'))
  /\ (exists out fs', write_to_file path content fs = (Returned out, fs'))
  /\ (exists out fs', read_file path fs = (Returned out, fs'))
  /\ (exists out fs', list_directory path fs = (Returned out, fs'))
  /\ (exists out fs', is_directory path fs = (Returned out, fs'))
  /\ (exists out fs', make_directory path fs = (Returned out, fs'))
  /\ (exists out fs', delete_file path safe fs = (Returned out, fs'))
  /\ (exists out fs', find_duplicates path fs = (Returned out, fs'))
  /\ (exists out fs', find_large_files path threshold fs = (Returned out, fs')).
Proof. repeat split; apply try_except_text. Qed.

(** X11. [read_file] on an existing file whose text can be read returns
    at most 2003 characters, counted as Python counts them (code points),
    and leaves the file system as it is: a text of at most 2000 characters
    comes back whole, a longer one as its first 2000 characters followed
    by "...".  A path that does not exist gives "Error: Not found.". *)
Theorem read_file_cuts_at_2000 (fs : FS) (path : string) (p : Path)
    (text : string) :
  fst (_resolve_path path fs) = Returned p ->
  path_exists fs p = Returned true ->
  read_text fs p = Returned text ->
  exists out,
    read_file path fs = (Returned out, fs)
    /\ py_len out <= 2003
    /\ (py_len text <= 2000 -> out = text)
    /\ (2000 < py_len text ->
        out = py_take 2000 text +:+ "..."
        /\ py_len (py_take 2000 text) = 2000
        /\ py_len out = 2003)
    /\ (forall fs0 path0 p0,
          fst (_resolve_path path0 fs0) = Returned p0 ->
          path_exists fs0 p0 = Returned false ->
          read_file path0 fs0 = (Returned "Error: Not found.", fs0)).
Proof.
  intros Hp Hex Htext.
  exists (py_take 2000 text
          +:+ (if Nat.ltb 2000 (py_len text) then "..." else EmptyString)).
  split; [|split; [|split; [|split]]].
  - unfold read_file, try_except, bind. rewrite resolve_run, Hp.
    unfold eval. rewrite Hex, Htext. reflexivity.
  - rewrite py_len_append, py_len_take.
    destruct (Nat.ltb_spec 2000 (py_len text)); cbv iota.
    + change (py_len "...") with 3. lia.
    + change (py_len EmptyString) with 0. lia.
  - intros Hshort.
    destruct (Nat.ltb_spec 2000 (py_len text)); [lia|]. cbv iota.
    rewrite append_empty. apply py_take_all. assumption.
  - intros Hlong.
    destruct (Nat.ltb_spec 2000 (py_len text)); [|lia]. cbv iota.
    split; [reflexivity|]. split.
    + rewrite py_len_take. lia.
    + rewrite py_len_append, py_len_take. change (py_len "...") with 3. lia.
  - intros fs0 path0 p0 Hp0 Hex0.
    unfold read_file, try_except, bind. rewrite resolve_run, Hp0.
    unfold eval. rewrite Hex0. reflexivity.
Qed.

(** The lines of a listing, when [is_dir] answers for every item. *)
Lemma collect_details (items : list Path) (fs : FS) :
  Forall (fun item => exists b, path_is_dir fs item = Returned b) items ->
  exists lines,
    collect items detail fs = (Returned lines, fs)
    /\ Forall2 (fun item line =>
                  exists b : bool,
                    path_is_dir fs item = Returned b
                    /\ line = "[" +:+ (if b then "DIR" else "FILE") +:+ "] "
                              +:+ path_name item)
               items lines.
Proof.
  induction 1 as [|item items [b Hb] _ (lines & Hrun & Hlines)].
  - exists []. split; [reflexivity|constructor].
  - exists (("[" +:+ (if b then "DIR" else "FILE") +:+ "] " +:+ path_name item)
            :: lines).
    split.
    + assert (Hline : detail item fs =
                      (Returned ("[" +:+ (if b then "DIR" else "FILE") +:+ "] "
                                 +:+ path_name item), fs)).
      { unfold detail, bind, eval. rewrite Hb. reflexivity. }
      cbn [collect]. rewrite (bind_returned _ _ _ _ _ Hline).
      rewrite (bind_returned _ _ _ _ _ Hrun). reflexivity.
    + constructor; [exists b; auto|assumption].
Qed.

(** X12. [list_directory] on an existing directory whose entries can be
    told apart shows the first 50 entries, one line "[DIR] name" or
    "[FILE] name" each, in the order [iterdir] gives them, and after them,
    only when there are more than 50, the line "... and N more." with N
    the number left out; the lines are joined by newlines, an empty
    directory gives the empty text, and the file system is not touched. *)
Theorem list_directory_shows_fifty (fs : FS) (path : string) (p : Path)
    (items : list Path) :
  fst (_resolve_path path fs) = Returned p ->
  path_exists fs p = Returned true ->
  path_is_dir fs p = Returned true ->
  iterdir fs p = Returned items ->
  Forall (fun item => exists b, path_is_dir fs item = Returned b) (take 50 items) ->
  exists lines more,
    list_directory path fs = (Returned (String.concat newline (lines ++ more)), fs)
    /\ Forall2 (fun item line =>
                  exists b : bool,
                    path_is_dir fs item = Returned b
                    /\ line = "[" +:+ (if b then "DIR" else "FILE") +:+ "] "
                              +:+ path_name item)
               (take 50 items) lines
    /\ length lines = Nat.min 50 (length items)
    /\ (length items <= 50 -> more = [])
    /\ (50 < length items ->
        more = ["... and " +:+ pretty (length items - 50) +:+ " more."])
    /\ (items = [] ->
        list_directory path fs = (Returned EmptyString, fs)).
Proof.
  intros Hp Hex Hdir Hitems Hkinds.
  destruct (collect_details (take 50 items) fs Hkinds) as (lines & Hrun & Hlines).
  assert (Hlist : list_directory path fs =
                  (Returned (String.concat newline
                     (if Nat.ltb 50 (length items)
                      then lines ++ ["... and " +:+ pretty (length items - 50)
                                     +:+ " more."]
                      else lines)), fs)).
  { unfold list_directory, try_except, bind. rewrite resolve_run, Hp.
    unfold eval. rewrite Hex. cbn [negb]. rewrite Hdir. cbn [negb].
    rewrite Hitems, Hrun. reflexivity. }
  exists lines,
    (if Nat.ltb 50 (length items)
     then ["... and " +:+ pretty (length items - 50) +:+ " more."] else []).
  split; [|split; [|split; [|split; [|split]]]].
  - rewrite Hlist. destruct (Nat.ltb 50 (length items));
      rewrite ?app_nil_r; reflexivity.
  - exact Hlines.
  - rewrite <- (Forall2_length _ _ _ Hlines), length_take. reflexivity.
  - intros Hfew. destruct (Nat.ltb_spec 50 (length items)); [lia|reflexivity].
  - intros Hmany. destruct (Nat.ltb_spec 50 (length items)); [reflexivity|lia].
  - intros ->. rewrite Hlist. inversion Hlines. reflexivity.
Qed.

(** ** Walks *)

Lemma walk_fold_walked {A} (visit : A -> Path -> A) (start : A)
    (walk : list (string * list string * list string)) :
  walk_fold visit start walk = foldl visit start (walked walk).
Proof.
  unfold walk_fold, walked. revert start.
  induction walk as [|[[root dirs] files] walk IH]; intros start; [reflexivity|].
  rewrite bind_cons, foldl_app. cbn [foldl]. rewrite IH. f_equal.
  clear IH. revert start. induction files as [|file files IH]; intros start;
    [reflexivity|apply IH].
Qed.

Lemma dup_line_ok_snoc (fs : FS) (l : list Path) (x : Path) (line : string) :
  dup_line_ok fs l line -> dup_line_ok fs (l ++ [x]) line.
Proof.
  intros (p & q & h & l1 & l2 & l3 & -> & -> & Hq & Hp & Hfirst).
  exists p, q, h, l1, l2, (l3 ++ [x]). repeat split; try assumption.
  rewrite <- !app_assoc. simpl. rewrite <- app_assoc. reflexivity.
Qed.

Lemma dup_scan (fs : FS) (l : list Path) :
  let st := foldl (dup_visit fs) (∅, []) l in
  (forall h, is_Some (st.1 !! h) <-> h ∈ omap (digest fs) l)
  /\ (st.2 = [] <-> NoDup (omap (digest fs) l))
  /\ (forall h q, st.1 !! h = Some q ->
        exists l1 l2, l = l1 ++ q :: l2 /\ digest fs q = Some h
                      /\ Forall (fun x => digest fs x <> Some h) l1)
  /\ Forall (dup_line_ok fs l) st.2.
Proof.
  induction l as [|p l IH] using rev_ind.
  - cbn. split; [|split; [|split]].
    + intros h. rewrite lookup_empty. split; [intros [? [=]]|intros H; inversion H].
    + split; [constructor|reflexivity].
    + intros h q H. rewrite lookup_empty in H. discriminate H.
    + constructor.
  - cbv zeta in IH |- *. rewrite foldl_app. cbn [foldl].
    destruct (foldl (dup_visit fs) (∅, []) l) as [hashes dupes].
    cbn [fst snd] in IH. destruct IH as (I1 & I2 & I3 & I4).
    rewrite omap_app. cbn [omap list_omap].
    assert (Hold : Forall (dup_line_ok fs (l ++ [p])) dupes).
    { eapply Forall_impl; [exact I4|]. intros line. apply dup_line_ok_snoc. }
    assert (Hkeep : forall h q, hashes !! h = Some q ->
              exists l1 l2, l ++ [p] = l1 ++ q :: l2 /\ digest fs q = Some h
                            /\ Forall (fun x => digest fs x <> Some h) l1).
    { intros h q Hq. destruct (I3 h q Hq) as (l1 & l2 & -> & Hd & Hf).
      exists l1, (l2 ++ [p]). rewrite <- app_assoc. auto. }
    unfold dup_visit.
    pose proof (eq_refl (digest fs p)) as Hp. unfold digest at 2 in Hp.
    destruct (read_bytes fs p) as [bytes|e] eqn:Hread; rewrite Hp.
    2: { cbn [fst snd]. rewrite app_nil_r. auto. }
    destruct (hashes !! md5_hexdigest bytes) as [first|] eqn:Hhash;
      cbn [fst snd].
    + assert (Hseen : md5_hexdigest bytes ∈ omap (digest fs) l)
        by (apply I1; eauto).
      split; [|split; [|split]].
      * intros h. rewrite I1, elem_of_app, elem_of_cons, elem_of_nil.
        split; [auto|]. intros [H|[->|[]]]; assumption.
      * split.
        -- intros H. apply app_eq_nil in H as [_ H]. discriminate H.
        -- intros H. apply NoDup_app in H as (_ & H & _).
           exfalso. apply (H _ Hseen). apply elem_of_cons. auto.
      * exact Hkeep.
      * apply Forall_app. split; [exact Hold|]. constructor; [|constructor].
        destruct (I3 _ _ Hhash) as (l1 & l2 & -> & Hd & Hf).
        exists p, first, (md5_hexdigest bytes), l1, l2, [].
        rewrite <- app_assoc. auto.
    + assert (Hnew : md5_hexdigest bytes ∉ omap (digest fs) l).
      { intros H. apply I1 in H as [q Hq]. congruence. }
      split; [|split; [|split]].
      * intros h. rewrite elem_of_app, elem_of_cons, elem_of_nil, <- I1.
        destruct (decide (md5_hexdigest bytes = h)) as [<-|Hne].
        -- rewrite lookup_insert_eq. split; eauto.
        -- rewrite lookup_insert_ne by assumption.
           split; [auto|]. intros [H|[->|[]]]; [assumption|contradiction].
      * rewrite I2, NoDup_app. split.
        -- intros H. split; [assumption|]. split.
           ++ intros x Hx Hin. apply elem_of_cons in Hin as [->|Hin];
                [contradiction|inversion Hin].
           ++ apply NoDup_singleton.
        -- intros (H & _ & _). assumption.
      * intros h q Hq.
        destruct (decide (md5_hexdigest bytes = h)) as [<-|Hne].
        -- rewrite lookup_insert_eq in Hq. injection Hq as <-.
           exists l, []. split; [reflexivity|]. split; [assumption|].
           apply Forall_forall. intros x Hx Hdx. apply Hnew.
           apply list_elem_of_omap. exists x. auto.
        -- rewrite lookup_insert_ne in Hq by assumption. apply Hkeep, Hq.
      * exact Hold.
Qed.

Lemma find_duplicates_run (fs : FS) (folder_path : string) (root : Path) :
  fst (_resolve_path folder_path fs) = Returned root ->
  find_duplicates folder_path fs =
  (Returned
     match (foldl (dup_visit fs) (∅, []) (walked (os_walk fs root))).2 with
     | [] => "No duplicates found."
     | dupes => "Duplicates found:" +:+ newline
                +:+ String.concat newline (take 20 dupes)
     end, fs).
Proof.
  intros Hroot. unfold find_duplicates, try_except, bind.
  rewrite resolve_run, Hroot. unfold eval. rewrite walk_fold_walked.
  destruct (foldl (dup_visit fs) (∅, []) (walked (os_walk fs root)))
    as [hashes [|d dupes]]; reflexivity.
Qed.

(** X13. [find_duplicates] answers "No duplicates found." exactly when
    the files of the walk that can be read have pairwise different
    digests; files that cannot be read are passed over and never make a
    duplicate.  The file system is not touched. *)
Theorem find_duplicates_none_iff (fs : FS) (folder_path : string) (root : Path) :
  fst (_resolve_path folder_path fs) = Returned root ->
  find_duplicates folder_path fs = (Returned "No duplicates found.", fs)
  <-> NoDup (omap (digest fs) (walked (os_walk fs root))).
Proof.
  intros Hroot. rewrite (find_duplicates_run fs folder_path root Hroot).
  destruct (dup_scan fs (walked (os_walk fs root))) as (_ & Hnone & _).
  cbv zeta in Hnone. rewrite <- Hnone.
  destruct ((foldl (dup_visit fs) (∅, []) (walked (os_walk fs root))).2)
    as [|d dupes].
  - split; reflexivity.
  - split; intros H; [|discriminate H].
    injection H as H. cbn in H. discriminate H.
Qed.

(** X14. Every line [find_duplicates] reports has the form "p == q" where
    q is the first file of the walk with its digest and p a later file
    with the same digest; at most 20 lines are reported, under the heading
    "Duplicates found:". *)
Theorem find_duplicates_pairs_with_first (fs : FS) (folder_path : string)
    (root : Path) :
  fst (_resolve_path folder_path fs) = Returned root ->
  exists dupes : list string,
    Forall (dup_line_ok fs (walked (os_walk fs root))) dupes
    /\ find_duplicates folder_path fs =
       (Returned
          match dupes with
          | [] => "No duplicates found."
          | _ => "Duplicates found:" +:+ newline
                 +:+ String.concat newline (take 20 dupes)
          end, fs)
    /\ length (take 20 dupes) <= 20.
Proof.
  intros Hroot.
  exists (foldl (dup_visit fs) (∅, []) (walked (os_walk fs root))).2.
  destruct (dup_scan fs (walked (os_walk fs root))) as (_ & _ & _ & Hlines).
  split; [exact Hlines|]. split.
  - rewrite (find_duplicates_run fs folder_path root Hroot).
    destruct ((foldl (dup_visit fs) (∅, []) (walked (os_walk fs root))).2);
      reflexivity.
  - rewrite length_take. lia.
Qed.

(** ** [find_large_files] *)

Lemma large_scan (fs : FS) (limit_bytes : Z) (l : list Path) (found : list string) :
  foldl (large_visit fs limit_bytes) found l =
  found ++ omap (large_line fs limit_bytes) l.
Proof.
  revert found. induction l as [|p l IH]; intros found.
  - simpl. rewrite app_nil_r. reflexivity.
  - cbn [foldl omap list_omap]. rewrite IH.
    unfold large_visit, large_line.
    destruct (stat_size fs p) as [size|e]; [|reflexivity].
    destruct (limit_bytes <? size)%Z; [|reflexivity].
    rewrite <- app_assoc. reflexivity.
Qed.

(** X15. [find_large_files] reports, in the order of the walk and joined
    by newlines, the first 20 of the files whose size is strictly greater
    than the threshold times 1024 * 1024 bytes; a file of exactly that
    size, or smaller, or whose size cannot be read, is not reported, and
    when nothing is larger the answer is the empty text. *)
Theorem find_large_files_reports_larger (fs : FS) (folder_path : string)
    (root : Path) (size_mb_threshold : Z) :
  fst (_resolve_path folder_path fs) = Returned root ->
  let limit_bytes := (size_mb_threshold * 1048576)%Z in
  find_large_files folder_path size_mb_threshold fs =
    (Returned
       (String.concat newline
          (take 20 (omap (large_line fs limit_bytes) (walked (os_walk fs root))))),
     fs)
  /\ (forall p size,
        stat_size fs p = Returned size ->
        (large_line fs limit_bytes p <> None <-> (limit_bytes < size)%Z))
  /\ (forall p e, stat_size fs p = Raised e -> large_line fs limit_bytes p = None)
  /\ (Forall (fun p => large_line fs limit_bytes p = None)
              (walked (os_walk fs root)) ->
      find_large_files folder_path size_mb_threshold fs = (Returned EmptyString, fs)).
Proof.
  intros Hroot limit_bytes.
  assert (Hlimit : (size_mb_threshold * 1024 * 1024)%Z = limit_bytes)
    by (unfold limit_bytes; lia).
  assert (Hrun : find_large_files folder_path size_mb_threshold fs =
    (Returned
       (String.concat newline
          (take 20 (omap (large_line fs limit_bytes) (walked (os_walk fs root))))),
     fs)).
  { unfold find_large_files, try_except, bind.
    rewrite resolve_run, Hroot. unfold eval.
    rewrite walk_fold_walked, large_scan, Hlimit. reflexivity. }
  split; [exact Hrun|]. split; [|split].
  - intros p size Hsize. unfold large_line. rewrite Hsize.
    destruct (Z.ltb_spec limit_bytes size); split; try congruence; try lia.
  - intros p e Hsize. unfold large_line. rewrite Hsize. reflexivity.
  - intros Hnone. rewrite Hrun. clear Hrun.
    assert (Hempty : omap (large_line fs limit_bytes) (walked (os_walk fs root)) = []).
    { induction Hnone as [|p l Hp _ IH]; [reflexivity|].
      cbn [omap list_omap]. rewrite Hp. exact IH. }
    rewrite Hempty. reflexivity.
Qed.

(** ** [search_files] *)

Lemma search_dir_eq (query root : string) (dirs files : list string)
    (n : Z) (found : list string) :
  search_dir query (n, found) (root, dirs, files) =
  ((n + Z.of_nat (length files))%Z,
   found ++ (joined <$> filter (fun entry => matches query entry = true)
                               ((fun file => (root, file)) <$> files))).
Proof.
  unfold search_dir. revert n found.
  induction files as [|file files IH]; intros n found.
  - cbn. rewrite app_nil_r. f_equal. lia.
  - cbn [foldl]. rewrite IH. f_equal; [rewrite length_cons; lia|].
    rewrite fmap_cons, filter_cons.
    assert (Hm : matches query (root, file)
                 = contains (str_lower query) (str_lower file))
      by reflexivity.
    destruct (contains (str_lower query) (str_lower file)).
    + rewrite decide_True by exact Hm.
      rewrite fmap_cons, <- app_assoc. reflexivity.
    + rewrite decide_False by (rewrite Hm; discriminate). reflexivity.
Qed.

Lemma walked_names_cons (root : string) (dirs files : list string)
    (walk : list (string * list string * list string)) :
  walked_names ((root, dirs, files) :: walk) =
  ((fun file => (root, file)) <$> files) ++ walked_names walk.
Proof. reflexivity. Qed.

(** Whatever the scan stops at, what it found are matching files of the
    walk. *)
Lemma search_walk_sound (query : string)
    (walk : list (string * list string * list string))
    (n : Z) (found : list string) :
  exists more,
    (search_walk query (n, found) walk).2 = found ++ more
    /\ Forall (fun path =>
                 exists entry, entry ∈ walked_names walk
                               /\ matches query entry = true
                               /\ path = joined entry) more.
Proof.
  revert n found. induction walk as [|[[root dirs] files] walk IH]; intros n found.
  - exists []. rewrite app_nil_r. split; [reflexivity|constructor].
  - cbn [search_walk fst]. destruct (10000 <? n)%Z.
    + exists []. rewrite app_nil_r. split; [reflexivity|constructor].
    + rewrite search_dir_eq.
      destruct (IH (n + Z.of_nat (length files))%Z
                   (found ++ (joined <$> filter (fun entry => matches query entry = true)
                                                ((fun file => (root, file)) <$> files))))
        as (more & -> & Hmore).
      eexists. rewrite <- app_assoc. split; [reflexivity|].
      rewrite walked_names_cons. apply Forall_app. split.
      * apply Forall_fmap, Forall_forall. intros entry Hin.
        apply list_elem_of_filter in Hin as [Hm Hin].
        exists entry. rewrite elem_of_app. auto.
      * eapply Forall_impl; [exact Hmore|].
        intros path (entry & Hin & Hm & ->). exists entry.
        rewrite elem_of_app. auto.
Qed.

(** A walk of at most 10000 files is scanned to its end. *)
Lemma search_walk_full (query : string)
    (walk : list (string * list string * list string))
    (n : Z) (found : list string) :
  (0 <= n)%Z ->
  (n + Z.of_nat (length (walked_names walk)) <= 10000)%Z ->
  (search_walk query (n, found) walk).2 =
  found ++ (joined <$> filter (fun entry => matches query entry = true)
                              (walked_names walk)).
Proof.
  revert n found. induction walk as [|[[root dirs] files] walk IH];
    intros n found Hn Hlen.
  - cbn. rewrite app_nil_r. reflexivity.
  - rewrite walked_names_cons, length_app, length_fmap in Hlen.
    cbn [search_walk fst].
    destruct (Z.ltb_spec 10000 n); [lia|].
    rewrite search_dir_eq, IH by lia.
    rewrite walked_names_cons, filter_app, fmap_app, <- app_assoc. reflexivity.
Qed.

Lemma contains_empty (hay : string) : contains EmptyString hay = true.
Proof. destruct hay; reflexivity. Qed.

Lemma search_files_run (fs : FS) (query : string) (search_path : option string)
    (root : Path) :
  search_root search_path fs = Returned root ->
  search_files query search_path fs =
  (Returned (repr_list
     (take 50 (search_walk query (0%Z, []) (os_walk fs root)).2)), fs).
Proof.
  intros Hroot. unfold search_files.
  assert (Hfirst : match search_path with
                   | Some (String _ _ as given) => _resolve_path given
                   | _ => ret get_documents_dir
                   end fs = (Returned root, fs)).
  { unfold search_root in Hroot.
    destruct search_path as [[|c given]|];
      try (injection Hroot as <-; reflexivity).
    rewrite resolve_run, Hroot. reflexivity. }
  rewrite (bind_returned _ _ _ _ _ Hfirst).
  unfold try_except, eval.
  destruct (search_walk query (0%Z, []) (os_walk fs root)) as [n found].
  reflexivity.
Qed.

(** X16. [search_files] reports at most 50 paths, and every path it
    reports is [os.path.join(root, file)] for a file of the walk whose
    name, put in lower case by [str.lower], contains the query put in lower
    case.  When the walk has at most 10000 files, it reports the first 50
    of all such files, in the order of the walk.  The empty query, which
    [str.lower] leaves empty, is contained in every name.  The file system
    is not touched. *)
Theorem search_files_reports_matches (fs : FS) (query : string)
    (search_path : option string) (root : Path) :
  search_root search_path fs = Returned root ->
  exists found : list string,
    search_files query search_path fs = (Returned (repr_list (take 50 found)), fs)
    /\ length (take 50 found) <= 50
    /\ Forall (fun path =>
                 exists entry, entry ∈ walked_names (os_walk fs root)
                               /\ matches query entry = true
                               /\ path = joined entry) found
    /\ ((Z.of_nat (length (walked_names (os_walk fs root))) <= 10000)%Z ->
        found = joined <$> filter (fun entry => matches query entry = true)
                                  (walked_names (os_walk fs root)))
    /\ (str_lower EmptyString = EmptyString ->
        forall entry, matches EmptyString entry = true).
Proof.
  intros Hroot.
  exists (search_walk query (0%Z, []) (os_walk fs root)).2.
  split; [exact (search_files_run fs query search_path root Hroot)|].
  split; [rewrite length_take; lia|]. split; [|split].
  - destruct (search_walk_sound query (os_walk fs root) 0 []) as (more & -> & H).
    exact H.
  - intros Hlen. rewrite search_walk_full by lia. reflexivity.
  - intros Hempty entry. unfold matches. rewrite Hempty. apply contains_empty.
Qed.

(** X17. Without a search path, and also with the empty text as search
    path, [search_files] scans the walk of the documents directory of the
    home; with any other path it scans the walk of what [_resolve_path]
    makes of it.  That first step is outside the [try]: when resolving the
    given path raises, [search_files] raises the same exception instead of
    answering in text. *)
Theorem search_files_start (fs : FS) (query : string) :
  search_files query None fs =
    (Returned (repr_list (take 50
       (search_walk query (0%Z, [])
          (os_walk fs (joinpath (mkPath expanduser_home) "Documents"))).2)), fs)
  /\ search_files query (Some EmptyString) fs = search_files query None fs
  /\ (forall given root,
        given <> EmptyString ->
        fst (_resolve_path given fs) = Returned root ->
        search_files query (Some given) fs =
          (Returned (repr_list (take 50
             (search_walk query (0%Z, []) (os_walk fs root)).2)), fs))
  /\ (forall given e,
        given <> EmptyString ->
        fst (_resolve_path given fs) = Raised e ->
        search_files query (Some given) fs = (Raised e, fs)).
Proof.
  split; [|split; [|split]].
  - apply search_files_run. reflexivity.
  - reflexivity.
  - intros given root Hgiven Hroot. apply search_files_run.
    destruct given as [|c given]; [congruence|exact Hroot].
  - intros given e Hgiven Hraise. unfold search_files.
    destruct given as [|c given]; [congruence|].
    apply bind_raised. rewrite resolve_run, Hraise. reflexivity.
Qed.

(** ** [manage_files] and [git_manager] *)

Lemma collect_nothing {A} (xs : list A) (f : A -> Eff FS (list string)) (fs : FS) :
  (forall x fs0, f x fs0 = (Returned [], fs0)) ->
  exists log, collect xs f fs = (Returned log, fs) /\ concat log = [].
Proof.
  intros Hf. induction xs as [|x xs (log & Hrun & Hlog)].
  - exists []. auto.
  - exists ([] :: log). split; [|exact Hlog].
    cbn [collect]. rewrite (bind_returned _ _ _ _ _ (Hf x fs)).
    rewrite (bind_returned _ _ _ _ _ Hrun). reflexivity.
Qed.

Lemma collect_returns {A B} (xs : list A) (f : A -> Eff FS B) (fs : FS) :
  (forall x fs0, exists y fs1, f x fs0 = (Returned y, fs1)) ->
  exists ys fs', collect xs f fs = (Returned ys, fs').
Proof.
  intros Hf. revert fs. induction xs as [|x xs IH]; intros fs.
  - exists [], fs. reflexivity.
  - destruct (Hf x fs) as (y & fs1 & Hy). destruct (IH fs1) as (ys & fs2 & Hys).
    exists (y :: ys), fs2. cbn [collect].
    rewrite (bind_returned _ _ _ _ _ Hy), (bind_returned _ _ _ _ _ Hys).
    reflexivity.
Qed.

(** X18. [manage_files] does nothing at all, and answers with the empty
    text, when the action is none of "delete", "move" and "copy", and also
    when it is "move" or "copy" without a target (none, or the empty text):
    no file is touched and nothing is reported, however many files are
    named.  With the action "delete" it never raises, each file going
    through [delete_file] with the safe deletion. *)
Theorem manage_files_ignores_unknown (action : string) (files : list string)
    (target : option string) (fs : FS) :
  action <> "delete" ->
  target = None \/ target = Some EmptyString
  \/ (action <> "move" /\ action <> "copy") ->
  manage_files action files target fs = (Returned EmptyString, fs)
  /\ (forall files0 target0 fs0,
        exists out fs1,
          manage_files "delete" files0 target0 fs0 = (Returned out, fs1)).
Proof.
  intros Hdelete Hidle. split.
  - assert (Hone : forall f fs0,
              manage_one action target f fs0 = (Returned [], fs0)).
    { intros f fs0. unfold manage_one.
      apply String.eqb_neq in Hdelete. rewrite Hdelete.
      destruct Hidle as [->|[->|[Hmove Hcopy]]]; try reflexivity.
      destruct target as [[|c dir]|]; try reflexivity.
      apply String.eqb_neq in Hmove, Hcopy. rewrite Hmove, Hcopy.
      reflexivity. }
    destruct (collect_nothing files (manage_one action target) fs Hone)
      as (log & Hrun & Hlog).
    unfold manage_files. rewrite (bind_returned _ _ _ _ _ Hrun), Hlog.
    reflexivity.
  - intros files0 target0 fs0.
    assert (Hone : forall f fs1, exists y fs2,
              manage_one "delete" target0 f fs1 = (Returned y, fs2)).
    { intros f fs1. unfold manage_one. cbn [String.eqb Ascii.eqb Bool.eqb].
      destruct (try_except_text
                  (p <- _resolve_path f ;;
                   found <- eval (fun fs => path_exists fs p) ;;
                   if negb found then ret ("Error: File " +:+ f +:+ " not found.")
                   else if true then
                     send2trash (path_text p) ;;;
                     ret ("Moved to Recycle Bin: " +:+ f)
                   else
                     is_dir <- eval (fun fs => path_is_dir fs p) ;;
                     (if (is_dir : bool) then rmtree p else os_remove p) ;;;
                     ret ("Permanently deleted: " +:+ f))
                  (fun e => "Error deleting file: " +:+ e) fs1)
        as (line & fs2 & Hline).
      exists [line], fs2.
      exact (bind_returned (delete_file f true) _ _ _ _ Hline). }
    destruct (collect_returns files0 (manage_one "delete" target0) fs0 Hone)
      as (log & fs1 & Hrun).
    eexists _, fs1. unfold manage_files.
    rewrite (bind_returned _ _ _ _ _ Hrun). reflexivity.
Qed.

Lemma subprocess_run_unchecked (args : list string) (cwd : Path)
    (fs fs' : FS) (status : Z) :
  run_process args cwd fs = (Returned status, fs') ->
  subprocess_run args cwd false fs = (Returned tt, fs').
Proof.
  intros Hrun. unfold subprocess_run.
  rewrite (bind_returned _ _ _ _ _ Hrun). reflexivity.
Qed.

Lemma subprocess_run_checked (args : list string) (cwd : Path)
    (fs fs' : FS) (status : Z) :
  run_process args cwd fs = (Returned status, fs') ->
  subprocess_run args cwd true fs =
  if (status =? 0)%Z then (Returned tt, fs')
  else (Raised (called_process_error args status), fs').
Proof.
  intros Hrun. unfold subprocess_run.
  rewrite (bind_returned _ _ _ _ _ Hrun).
  destruct (status =? 0)%Z; reflexivity.
Qed.

(** X19. In a repository that exists and already has its [.git], when
    [git add .] exits with status 0 and no remote is given, [git_manager]
    answers "Git operations ran." whatever status [git commit] exits with:
    a failed commit is not reported.  When [git add .] exits with another
    status, the answer is "Git error: " with the text of the failure, and
    the commit is not attempted. *)
Theorem git_manager_overlooks_commit (fs : FS) (repo_path commit_message : string)
    (remote_url : option string) :
  path_exists fs (mkPath repo_path) = Returned true ->
  path_exists fs (joinpath (mkPath repo_path) ".git") = Returned true ->
  remote_url = None \/ remote_url = Some EmptyString ->
  (forall fs1 fs2 status,
     run_process ["git"; "add"; "."] (mkPath repo_path) fs = (Returned 0%Z, fs1) ->
     run_process ["git"; "commit"; "-m"; commit_message] (mkPath repo_path) fs1
       = (Returned status, fs2) ->
     git_manager repo_path remote_url commit_message fs =
       (Returned "Git operations ran.", fs2))
  /\ (forall fs1 status,
        status <> 0%Z ->
        run_process ["git"; "add"; "."] (mkPath repo_path) fs
          = (Returned status, fs1) ->
        git_manager repo_path remote_url commit_message fs =
          (Returned ("Git error: "
                     +:+ called_process_error ["git"; "add"; "."] status), fs1)).
Proof.
  intros Hrepo Hgit Hremote. split.
  - intros fs1 fs2 status Hadd Hcommit.
    unfold git_manager, bind at 1, eval at 1. rewrite Hrepo. cbn [negb].
    unfold try_except, bind at 1, eval at 1. rewrite Hgit.
    unfold bind at 1, ret at 1.
    pose proof (subprocess_run_checked _ _ _ _ _ Hadd) as Hadd'.
    cbn [Z.eqb] in Hadd'. rewrite (bind_returned _ _ _ _ _ Hadd').
    rewrite (bind_returned _ _ _ _ _ (subprocess_run_unchecked _ _ _ _ _ Hcommit)).
    destruct Hremote as [-> | ->]; reflexivity.
  - intros fs1 status Hstatus Hadd.
    unfold git_manager, bind at 1, eval at 1. rewrite Hrepo. cbn [negb].
    unfold try_except, bind at 1, eval at 1. rewrite Hgit.
    unfold bind at 1, ret at 1.
    pose proof (subprocess_run_checked _ _ _ _ _ Hadd) as Hadd'.
    apply Z.eqb_neq in Hstatus. rewrite Hstatus in Hadd'.
    rewrite (bind_raised _ _ _ _ _ Hadd'). reflexivity.
Qed.

End FilesFacts.

(** * The tools on the file system in memory *)

Lemma read_file_cuts_at_2000_witness :
  read_file (os := tree_os) (disk := mem_disk) "/docs/a.txt" docs_fs =
  (Returned "same", docs_fs).
Proof.
  destruct (read_file_cuts_at_2000 (os := tree_os) (disk := mem_disk)
              docs_fs "/docs/a.txt" "/docs/a.txt" "same"
              eq_refl eq_refl eq_refl) as (out & Hrun & _ & Hshort & _).
  rewrite Hrun, Hshort; [reflexivity|vm_compute; lia].
Defined.

Lemma list_directory_shows_fifty_witness :
  exists lines,
    list_directory (os := tree_os) (disk := mem_disk) "/docs" docs_fs =
    (Returned (String.concat newline lines), docs_fs)
    /\ length lines = 3.
Proof.
  assert (Hkinds : Forall (fun item =>
                     exists b, path_is_dir (Disk := mem_disk) docs_fs item = Returned b)
                     (take 50 ["/docs/c.txt"; "/docs/a.txt"; "/docs/b.txt"])).
  { repeat constructor; eexists; reflexivity. }
  destruct (list_directory_shows_fifty (os := tree_os) (disk := mem_disk)
              docs_fs "/docs" "/docs" ["/docs/c.txt"; "/docs/a.txt"; "/docs/b.txt"]
              eq_refl eq_refl eq_refl eq_refl Hkinds)
    as (lines & more & Hrun & _ & Hlen & Hfew & _).
  exists lines. rewrite Hrun, Hfew, app_nil_r; [|simpl; lia].
  split; [reflexivity|exact Hlen].
Defined.

Lemma find_duplicates_none_iff_witness :
  find_duplicates (os := tree_os) (disk := mem_disk) "/docs" docs_fs =
    (Returned "No duplicates found.", docs_fs)
  <-> NoDup (omap (digest (disk := mem_disk) docs_fs)
                  (walked (os_walk (Disk := mem_disk) docs_fs "/docs"))).
Proof.
  exact (find_duplicates_none_iff (os := tree_os) (disk := mem_disk)
           docs_fs "/docs" "/docs" eq_refl).
Defined.

Lemma find_duplicates_pairs_with_first_witness :
  exists dupes : list string,
    Forall (dup_line_ok (disk := mem_disk) docs_fs
              (walked (os_walk (Disk := mem_disk) docs_fs "/docs"))) dupes
    /\ length (take 20 dupes) <= 20.
Proof.
  destruct (find_duplicates_pairs_with_first (os := tree_os) (disk := mem_disk)
              docs_fs "/docs" "/docs" eq_refl) as (dupes & Hlines & _ & Hlen).
  exists dupes. split; [exact Hlines|exact Hlen].
Defined.

Lemma find_large_files_reports_larger_witness :
  find_large_files (os := tree_os) (disk := mem_disk) "/docs" 100 docs_fs =
  (Returned EmptyString, docs_fs).
Proof.
  destruct (find_large_files_reports_larger (os := tree_os) (disk := mem_disk)
              docs_fs "/docs" "/docs" 100 eq_refl) as (Hrun & _).
  rewrite Hrun. vm_compute. reflexivity.
Defined.

Lemma search_files_reports_matches_witness :
  exists found : list string,
    search_files (os := tree_os) (disk := mem_disk) "A." (Some "/docs") docs_fs =
    (Returned (repr_list (Disk := mem_disk) (take 50 found)), docs_fs)
    /\ length (take 50 found) <= 50.
Proof.
  destruct (search_files_reports_matches (os := tree_os) (disk := mem_disk)
              docs_fs "A." (Some "/docs") "/docs" eq_refl)
    as (found & Hrun & Hlen & _).
  exists found. split; [exact Hrun|exact Hlen].
Defined.

Lemma manage_files_ignores_unknown_witness :
  manage_files (os := tree_os) (disk := mem_disk)
    "rename" ["/docs/a.txt"; "/docs/b.txt"] (Some "/tmp") docs_fs =
  (Returned EmptyString, docs_fs).
Proof.
  assert (Hdelete : "rename" <> "delete") by discriminate.
  assert (Hidle : Some "/tmp" = None \/ Some "/tmp" = Some EmptyString
                  \/ ("rename" <> "move" /\ "rename" <> "copy")).
  { right. right. split; discriminate. }
  exact (proj1 (manage_files_ignores_unknown (os := tree_os) (disk := mem_disk)
                  "rename" ["/docs/a.txt"; "/docs/b.txt"] (Some "/tmp") docs_fs
                  Hdelete Hidle)).
Defined.

Lemma git_manager_overlooks_commit_witness :
  git_manager (os := tree_os) (disk := mem_disk) "/docs" None "Update" docs_fs =
  (Returned "Git operations ran.", docs_fs).
Proof.
  destruct (git_manager_overlooks_commit (os := tree_os) (disk := mem_disk)
              docs_fs "/docs" "Update" None eq_refl eq_refl (or_introl eq_refl))
    as (Hran & _).
  exact (Hran docs_fs docs_fs 1%Z eq_refl eq_refl).
Defined.
